(** * from-ava-to-jest: the six rewrite passes of the codemod, over a
      shallow embedding of the syntax tree they mutate.

    Source: [src/from-ava-to-jest.ts].  The parser, the printer and the
    tree-query layer (jscodeshift over ast-types) are collaborators of the
    transformer.  What the passes use of them is written out here: the kinds
    of nodes and the checks of the builders, the order in which [find] visits
    a tree, and where [replaceWith], [insertBefore], [insertAfter], [prune]
    and the in-place mutations of [forEach] leave their result. *)

From Stdlib Require Import String List Bool ZArith Lia.
Import ListNotations.
Open Scope string_scope.
Open Scope list_scope.

Set Implicit Arguments.
#[local] Set Warnings "-register-all".

(** ** Tree: the nodes the passes look at *)

Inductive literal : Type :=
| LString (s : string)
| LNumber (z : Z)
| LBoolean (b : bool).

(** Keys of a type literal's members: [member.key.type === 'Identifier']
    is the only thing the code asks of a key. *)
Inductive propkey : Type :=
| KIdentifier (name : string)
| KLiteral (value : literal).

(** TypeScript types.  No pass looks below a type; a type holds no
    expression or statement. *)
Inductive tstype : Type :=
| TSKeyword (keyword : string)                      (* TSNumberKeyword, TSStringKeyword, ... *)
| TSTypeReference (typeName : string) (typeParameters : option (list tstype))
    (* [typeParameters] is [typeParameters.params] of the reference, when it has one *)
| TSTypeLiteral (members : list tsmember)
with tsmember : Type :=
| TSPropertySignature (key : propkey) (typeAnnotation : option tstype)
| TSMethodSignature (key : propkey)
| TSIndexSignature.

(** Nodes are untyped, as ast-types objects are: nothing in a constructor
    says that a slot holds an expression or a statement.  [isExpression]
    and friends below give the kind of a node from its [type] tag. *)
Inductive node : Type :=
| Identifier (name : string) (typeAnnotation : option tstype)
    (* the type under the TSTypeAnnotation of the identifier, when it has one *)
| Literal (value : literal)
| NullLiteral
| MemberExpression (computed : bool) (object property : node)
| CallExpression (callee : node) (arguments : list node)
| ArrowFunctionExpression (params : list node) (body : node)
| FunctionExpression (id : option string) (params : list node) (body : node)
| ObjectExpression (properties : list node)
| ObjectProperty (key value : node)
| TSAsExpression (expression : node) (typeAnnotation : tstype)
| AwaitExpression (argument : node)
| BlockStatement (body : list node)
| ExpressionStatement (expression : node)
| ReturnStatement (argument : option node)
| VariableDeclaration (kind : string) (declarations : list declarator)
| TSTypeAliasDeclaration (id : string) (typeAnnotation : tstype)
with declarator : Type :=
| VariableDeclarator (id : node) (init : option node).

(** A file, the [body] of its [Program]: import declarations live at the
    top level only. *)
Inductive toplevel : Type :=
| ImportDeclaration (specifiers : list string) (source : literal)
| Statement (s : node).

Definition program : Type := list toplevel.

(** ** Traversal combinators

    [mapKids f g n] rebuilds [n] with [f] applied to the nodes in its scalar
    slots and [g] to its array slots. *)
Definition mapDeclarator (f : node -> node) (d : declarator) : declarator :=
  match d with
  | VariableDeclarator i init => VariableDeclarator (f i) (option_map f init)
  end.

Definition mapKids (f : node -> node) (g : list node -> list node) (n : node) : node :=
  match n with
  | Identifier _ _ | Literal _ | NullLiteral | TSTypeAliasDeclaration _ _ => n
  | MemberExpression c o p => MemberExpression c (f o) (f p)
  | CallExpression c args => CallExpression (f c) (g args)
  | ArrowFunctionExpression ps b => ArrowFunctionExpression (g ps) (f b)
  | FunctionExpression i ps b => FunctionExpression i (g ps) (f b)
  | ObjectExpression ps => ObjectExpression (g ps)
  | ObjectProperty k v => ObjectProperty (f k) (f v)
  | TSAsExpression e t => TSAsExpression (f e) t
  | AwaitExpression a => AwaitExpression (f a)
  | BlockStatement b => BlockStatement (g b)
  | ExpressionStatement e => ExpressionStatement (f e)
  | ReturnStatement a => ReturnStatement (option_map f a)
  | VariableDeclaration k ds => VariableDeclaration k (map (mapDeclarator f) ds)
  end.

(** ** Induction over nodes

    The induction principle below gives the hypothesis for every node in an
    array or optional slot, and for the nodes of every declarator. *)

Definition Forall_opt (A : Type) (P : A -> Prop) (o : option A) : Prop :=
  match o with Some a => P a | None => True end.

Definition Forall_declarator (P : node -> Prop) (d : declarator) : Prop :=
  match d with VariableDeclarator i init => P i /\ Forall_opt P init end.

Section NodeInduction.
Variable P : node -> Prop.
Hypothesis HIdentifier : forall s t, P (Identifier s t).
Hypothesis HLiteral : forall v, P (Literal v).
Hypothesis HNullLiteral : P NullLiteral.
Hypothesis HMemberExpression :
  forall c o p, P o -> P p -> P (MemberExpression c o p).
Hypothesis HCallExpression :
  forall c args, P c -> Forall P args -> P (CallExpression c args).
Hypothesis HArrowFunctionExpression :
  forall ps b, Forall P ps -> P b -> P (ArrowFunctionExpression ps b).
Hypothesis HFunctionExpression :
  forall i ps b, Forall P ps -> P b -> P (FunctionExpression i ps b).
Hypothesis HObjectExpression :
  forall ps, Forall P ps -> P (ObjectExpression ps).
Hypothesis HObjectProperty :
  forall k v, P k -> P v -> P (ObjectProperty k v).
Hypothesis HTSAsExpression : forall e t, P e -> P (TSAsExpression e t).
Hypothesis HAwaitExpression : forall a, P a -> P (AwaitExpression a).
Hypothesis HBlockStatement : forall b, Forall P b -> P (BlockStatement b).
Hypothesis HExpressionStatement : forall e, P e -> P (ExpressionStatement e).
Hypothesis HReturnStatement : forall a, Forall_opt P a -> P (ReturnStatement a).
Hypothesis HVariableDeclaration :
  forall k ds, Forall (Forall_declarator P) ds -> P (VariableDeclaration k ds).
Hypothesis HTSTypeAliasDeclaration : forall i t, P (TSTypeAliasDeclaration i t).

Fixpoint node_induction (n : node) : P n :=
  let many :=
    fix many (l : list node) : Forall P l :=
      match l with
      | [] => Forall_nil P
      | x :: r => Forall_cons x (node_induction x) (many r)
      end in
  let opt (o : option node) : Forall_opt P o :=
    match o with Some a => node_induction a | None => I end in
  match n with
  | Identifier s t => HIdentifier s t
  | Literal v => HLiteral v
  | NullLiteral => HNullLiteral
  | MemberExpression c o p =>
      HMemberExpression c (node_induction o) (node_induction p)
  | CallExpression c args => HCallExpression (node_induction c) (many args)
  | ArrowFunctionExpression ps b =>
      HArrowFunctionExpression (many ps) (node_induction b)
  | FunctionExpression i ps b =>
      HFunctionExpression i (many ps) (node_induction b)
  | ObjectExpression ps => HObjectExpression (many ps)
  | ObjectProperty k v => HObjectProperty (node_induction k) (node_induction v)
  | TSAsExpression e t => HTSAsExpression t (node_induction e)
  | AwaitExpression a => HAwaitExpression (node_induction a)
  | BlockStatement b => HBlockStatement (many b)
  | ExpressionStatement e => HExpressionStatement (node_induction e)
  | ReturnStatement a => HReturnStatement a (opt a)
  | VariableDeclaration k ds =>
      HVariableDeclaration k
        ((fix decls (l : list declarator) : Forall (Forall_declarator P) l :=
            match l with
            | [] => Forall_nil _
            | VariableDeclarator i init :: r =>
                Forall_cons (VariableDeclarator i init)
                  (conj (node_induction i) (opt init)) (decls r)
            end) ds)
  | TSTypeAliasDeclaration i t => HTSTypeAliasDeclaration i t
  end.
End NodeInduction.

(** ** Kinds of nodes

    The supertype checks of ast-types ([j.Expression.check] and the like)
    look at the [type] tag only. *)

Definition isExpression (n : node) : bool :=
  match n with
  | Identifier _ _ | Literal _ | NullLiteral | MemberExpression _ _ _
  | CallExpression _ _ | ArrowFunctionExpression _ _ | FunctionExpression _ _ _
  | ObjectExpression _ | TSAsExpression _ _ | AwaitExpression _ => true
  | _ => false
  end.

Definition isStatement (n : node) : bool :=
  match n with
  | BlockStatement _ | ExpressionStatement _ | ReturnStatement _
  | VariableDeclaration _ _ | TSTypeAliasDeclaration _ _ => true
  | _ => false
  end.

(** What a parameter list or the [id] of a declarator takes. *)
Definition isPattern (n : node) : bool :=
  match n with
  | Identifier _ _ | TSAsExpression _ _ => true
  | _ => false
  end.

Definition isFunctionValue (n : node) : bool :=
  match n with
  | ArrowFunctionExpression _ _ | FunctionExpression _ _ _ => true
  | _ => false
  end.

(** [node.name]: [undefined] on a node that has no such field. *)
Definition nodeName (n : node) : option string :=
  match n with
  | Identifier s _ => Some s
  | _ => None
  end.

(** [{ name: s }] as a filter: the node has an own field [name] equal to [s]. *)
Definition nameIs (s : string) (n : node) : bool :=
  match nodeName n with
  | Some x => String.eqb x s
  | None => false
  end.

(** ** Effects: the console and exceptions *)

Inductive exn : Type :=
| BuilderMismatch (def field : string)
    (* ast-types: "<value> does not match field <field> of type <def>" *)
| NotAnArray.
    (* ast-types: insertBefore / insertAfter on a path whose parent is no array *)

Inductive outcome (A : Type) : Type :=
| Returned (a : A)
| Thrown (e : exn).
Arguments Thrown {A} e.

(** A computation over a state [S] (the console, for the passes that log)
    that returns or throws. *)
Definition Eff (S A : Type) : Type := S -> outcome A * S.

Definition ret {S A : Type} (a : A) : Eff S A := fun s => (Returned a, s).

Definition bind {S A B : Type} (m : Eff S A) (k : A -> Eff S B) : Eff S B :=
  fun s =>
    match m s with
    | (Returned a, s') => k a s'
    | (Thrown e, s') => (Thrown e, s')
    end.

Definition lift {S A : Type} (o : outcome A) : Eff S A := fun s => (o, s).

Definition get {S : Type} : Eff S S := fun s => (Returned s, s).
Definition put {S : Type} (s : S) : Eff S unit := fun _ => (Returned tt, s).

Declare Scope eff_scope.
Delimit Scope eff_scope with eff.
Notation "x <- m ;; k" := (bind m (fun x => k))
  (at level 100, m at next level, right associativity) : eff_scope.
Notation "m ;; k" := (bind m (fun _ => k))
  (at level 100, right associativity) : eff_scope.
Open Scope eff_scope.

Fixpoint mapM {S A B : Type} (f : A -> Eff S B) (l : list A) : Eff S (list B) :=
  match l with
  | [] => ret []
  | x :: r => y <- f x ;; ys <- mapM f r ;; ret (y :: ys)
  end.

Definition optM {S A B : Type} (f : A -> Eff S B) (o : option A) : Eff S (option B) :=
  match o with
  | Some a => b <- f a ;; ret (Some b)
  | None => ret None
  end.

Definition console : Type := list string.

(** [console.log] and [console.warn] write one line each. *)
Definition console_log (msg : string) : Eff console unit :=
  fun c => (Returned tt, c ++ [msg]).

(** [mapKidsM f g n]: [mapKids] with effects, children in field order. *)
Definition mapDeclaratorM {S : Type} (f : node -> Eff S node) (d : declarator)
  : Eff S declarator :=
  match d with
  | VariableDeclarator i init =>
      i' <- f i ;; init' <- optM f init ;; ret (VariableDeclarator i' init')
  end.

Definition mapKidsM {S : Type} (f : node -> Eff S node)
    (g : list node -> Eff S (list node)) (n : node) : Eff S node :=
  match n with
  | Identifier _ _ | Literal _ | NullLiteral | TSTypeAliasDeclaration _ _ => ret n
  | MemberExpression c o p => o' <- f o ;; p' <- f p ;; ret (MemberExpression c o' p')
  | CallExpression c args => c' <- f c ;; args' <- g args ;; ret (CallExpression c' args')
  | ArrowFunctionExpression ps b =>
      ps' <- g ps ;; b' <- f b ;; ret (ArrowFunctionExpression ps' b')
  | FunctionExpression i ps b =>
      ps' <- g ps ;; b' <- f b ;; ret (FunctionExpression i ps' b')
  | ObjectExpression ps => ps' <- g ps ;; ret (ObjectExpression ps')
  | ObjectProperty k v => k' <- f k ;; v' <- f v ;; ret (ObjectProperty k' v')
  | TSAsExpression e t => e' <- f e ;; ret (TSAsExpression e' t)
  | AwaitExpression a => a' <- f a ;; ret (AwaitExpression a')
  | BlockStatement b => b' <- g b ;; ret (BlockStatement b')
  | ExpressionStatement e => e' <- f e ;; ret (ExpressionStatement e')
  | ReturnStatement a => a' <- optM f a ;; ret (ReturnStatement a')
  | VariableDeclaration k ds =>
      ds' <- mapM (mapDeclaratorM f) ds ;; ret (VariableDeclaration k ds')
  end.

(** [allKids ps pa n]: [ps] holds of the nodes in the scalar slots of [n]
    and [pa] of the nodes in its array slots. *)
Definition allKids (ps pa : node -> bool) (n : node) : bool :=
  let opt o := match o with Some a => ps a | None => true end in
  match n with
  | Identifier _ _ | Literal _ | NullLiteral | TSTypeAliasDeclaration _ _ => true
  | MemberExpression _ o p => ps o && ps p
  | CallExpression c args => ps c && forallb pa args
  | ArrowFunctionExpression l b | FunctionExpression _ l b => forallb pa l && ps b
  | ObjectExpression l | BlockStatement l => forallb pa l
  | ObjectProperty k v => ps k && ps v
  | TSAsExpression e _ | AwaitExpression e | ExpressionStatement e => ps e
  | ReturnStatement a => opt a
  | VariableDeclaration _ ds =>
      forallb (fun d => match d with VariableDeclarator i init => ps i && opt init end) ds
  end.

(** [collectKids f fd n]: the results of [f] on the children of [n], in field
    order; [fd] is asked at each declarator, before the declarator's own
    children. *)
Definition collectKids {A : Type} (f : node -> list A) (fd : declarator -> list A)
    (n : node) : list A :=
  let opt o := match o with Some a => f a | None => [] end in
  match n with
  | Identifier _ _ | Literal _ | NullLiteral | TSTypeAliasDeclaration _ _ => []
  | MemberExpression _ o p => f o ++ f p
  | CallExpression c args => f c ++ flat_map f args
  | ArrowFunctionExpression l b | FunctionExpression _ l b => flat_map f l ++ f b
  | ObjectExpression l | BlockStatement l => flat_map f l
  | ObjectProperty k v => f k ++ f v
  | TSAsExpression e _ | AwaitExpression e | ExpressionStatement e => f e
  | ReturnStatement a => opt a
  | VariableDeclaration _ ds =>
      flat_map (fun d => fd d ++ match d with VariableDeclarator i init => f i ++ opt init end) ds
  end.

(** ** Objects used as tables

    [tPropertiesMap] and [avaToJestLifecycleMethods] are object literals.
    [obj[k]] on an object literal answers with the own property when there
    is one, and otherwise with what [Object.prototype] has under that name;
    [undefined] as a key is the string ["undefined"]. *)

Inductive jsvalue : Type :=
| JUndefined
| JString (s : string)
| JInherited (name : string).   (* a function or object found on Object.prototype *)

Definition objectPrototype : list string :=
  [ "constructor"; "__defineGetter__"; "__defineSetter__"; "hasOwnProperty";
    "__lookupGetter__"; "__lookupSetter__"; "isPrototypeOf";
    "propertyIsEnumerable"; "toString"; "valueOf"; "__proto__";
    "toLocaleString" ].

Definition propertyKey (k : option string) : string :=
  match k with
  | Some s => s
  | None => "undefined"
  end.

Fixpoint ownProperty (obj : list (string * string)) (k : string) : option string :=
  match obj with
  | [] => None
  | (k', v) :: r => if String.eqb k k' then Some v else ownProperty r k
  end.

Definition getProperty (obj : list (string * string)) (k : option string) : jsvalue :=
  match ownProperty obj (propertyKey k) with
  | Some v => JString v
  | None =>
      if existsb (String.eqb (propertyKey k)) objectPrototype
      then JInherited (propertyKey k)
      else JUndefined
  end.

(** [v === s] for a string [s]. *)
Definition jsIs (v : jsvalue) (s : string) : bool :=
  match v with
  | JString x => String.eqb x s
  | _ => false
  end.

(** [Object.keys(obj).includes(k)] *)
Definition keysInclude (obj : list (string * string)) (k : option string) : bool :=
  match k with
  | Some s => existsb (String.eqb s) (map fst obj)
  | None => false
  end.

(** [new Set([...]).has(k)] *)
Definition setHas (set : list string) (k : option string) : bool :=
  match k with
  | Some s => existsb (String.eqb s) set
  | None => false
  end.

(** ** Rule tables *)

Definition SPECIAL_THROWS_CASE : string := "(special throws case)".
Definition SPECIAL_BOOL : string := "(special bool case)".
Definition SPECIAL_PLAN_CASE : string := "(special plan case)".

Definition tPropertiesMap : list (string * string) :=
  [ ("ok", "toBeTruthy");
    ("truthy", "toBeTruthy");
    ("falsy", "toBeFalsy");
    ("notOk", "toBeFalsy");
    ("true", SPECIAL_BOOL);
    ("false", SPECIAL_BOOL);
    ("is", "toBe");
    ("not", "not.toBe");
    ("same", "toEqual");
    ("deepEqual", "toEqual");
    ("notSame", "not.toEqual");
    ("notDeepEqual", "not.toEqual");
    ("throws", SPECIAL_THROWS_CASE);
    ("notThrows", SPECIAL_THROWS_CASE);
    ("regex", "toMatch");
    ("notRegex", "not.toMatch");
    ("ifError", "toBeFalsy");
    ("error", "toBeFalsy");
    ("plan", SPECIAL_PLAN_CASE);
    ("snapshot", "toMatchSnapshot") ].

Definition tPropertiesNotMapped : list string := [ "end"; "fail"; "pass" ].

Definition avaToJestLifecycleMethods : list (string * string) :=
  [ ("before", "beforeAll");
    ("after", "afterAll");
    ("beforeEach", "beforeEach");
    ("afterEach", "afterEach");
    ("only", "test.only");
    ("skip", "test.skip");
    ("failing", "test.skip");
    ("todo", "test.todo") ].

(** ** Builders

    The builders of ast-types check every field against its declared type and
    throw on a mismatch.  An element read past the end of an array is
    [undefined], here [None]. *)

Section Builders.
Context {S : Type}.

Definition j_identifier (name : jsvalue) : Eff S node :=
  match name with
  | JString s => ret (Identifier s None)
  | _ => lift (Thrown (BuilderMismatch "Identifier" "name"))
  end.

Fixpoint definedExpressions (l : list (option node)) : option (list node) :=
  match l with
  | [] => Some []
  | Some a :: r =>
      if isExpression a
      then match definedExpressions r with Some r' => Some (a :: r') | None => None end
      else None
  | None :: _ => None
  end.

Definition j_callExpression (callee : node) (arguments : list (option node))
  : Eff S node :=
  if isExpression callee then
    match definedExpressions arguments with
    | Some args => ret (CallExpression callee args)
    | None => lift (Thrown (BuilderMismatch "CallExpression" "arguments"))
    end
  else lift (Thrown (BuilderMismatch "CallExpression" "callee")).

Definition j_memberExpression (object property : node) : Eff S node :=
  if isExpression object then
    if isExpression property then ret (MemberExpression false object property)
    else lift (Thrown (BuilderMismatch "MemberExpression" "property"))
  else lift (Thrown (BuilderMismatch "MemberExpression" "object")).

Definition j_expressionStatement (expression : node) : Eff S node :=
  if isExpression expression then ret (ExpressionStatement expression)
  else lift (Thrown (BuilderMismatch "ExpressionStatement" "expression")).

Definition j_blockStatement (body : list node) : Eff S node :=
  if forallb isStatement body then ret (BlockStatement body)
  else lift (Thrown (BuilderMismatch "BlockStatement" "body")).

Definition j_functionExpression (id : option string) (params : list node)
    (body : node) : Eff S node :=
  if forallb isPattern params then
    match body with
    | BlockStatement _ => ret (FunctionExpression id params body)
    | _ => lift (Thrown (BuilderMismatch "FunctionExpression" "body"))
    end
  else lift (Thrown (BuilderMismatch "FunctionExpression" "params")).
End Builders.

(** ** Pass 1: removeImport

    [root.find(j.ImportDeclaration, { source: { value: 'ava' } })] and
    [prune] on every path found. *)

Definition isAvaImport (t : toplevel) : bool :=
  match t with
  | ImportDeclaration _ (LString s) => String.eqb s "ava"
  | _ => false
  end.

Definition removeImport (root : program) : program :=
  filter (fun t => negb (isAvaImport t)) root.

(** ** Pass 2: generateSharedContext *)

(** [{ id: { name: 'test' } }] on a declarator. *)
Definition isTestDeclarator (d : declarator) : bool :=
  match d with
  | VariableDeclarator i _ => nameIs "test" i
  end.

(** [root.find(j.VariableDeclarator, { id: { name: 'test' } })]: the
    declarators found, in the order of the traversal (a node before its
    children, children in field order). *)
Fixpoint findTestDeclarators (n : node) : list declarator :=
  collectKids findTestDeclarators
    (fun d => if isTestDeclarator d then [d] else []) n.

Definition findTestDeclaratorsTop (t : toplevel) : list declarator :=
  match t with
  | Statement s => findTestDeclarators s
  | ImportDeclaration _ _ => []
  end.

(** [testVariableDeclarator.closest(j.Statement)]: the nearest statement
    above a declarator is the declaration that holds it; a declaration
    that holds several of the declarators found is in the collection once. *)
Definition isTestStatement (n : node) : bool :=
  match n with
  | VariableDeclaration _ ds => existsb isTestDeclarator ds
  | _ => false
  end.

(** [insertBefore(before)] and [insertAfter(after)] on every statement of
    that collection.  ast-types splices into the array that holds the
    statement, and throws when the statement sits in a scalar slot. *)
Fixpoint insertAround (before after : node) (n : node) : Eff console node :=
  mapKidsM
    (fun k =>
       if isTestStatement k then lift (Thrown NotAnArray)
       else insertAround before after k)
    (fun l =>
       ls <- mapM (fun k =>
                     k' <- insertAround before after k ;;
                     ret (if isTestStatement k then [before; k'; after] else [k']))
                  l ;;
       ret (concat ls))
    n.

Definition insertAroundTop (before after : node) (root : program)
  : Eff console program :=
  ls <- mapM (fun t =>
                match t with
                | Statement s =>
                    s' <- insertAround before after s ;;
                    ret (if isTestStatement s
                         then [Statement before; Statement s'; Statement after]
                         else [Statement s'])
                | ImportDeclaration _ _ => ret [t]
                end)
             root ;;
  ret (concat ls).

(** [j(testVariableDeclarator.get()).remove()]: the first declarator found
    is spliced out of its declaration, and [prune] then drops a declaration
    left without declarators from the array that holds it.  The state is
    [true] once the declarator has been met.

    A declaration in a scalar slot cannot be dropped that way; the inserts
    above have thrown by then, and the model keeps the emptied declaration. *)
Section Prune.
Variable visit : node -> Eff bool node.

(** The declarators after the pass, and whether the first declarator found
    was one of them. *)
Fixpoint pruneDeclarators (ds : list declarator) : Eff bool (list declarator * bool) :=
  match ds with
  | [] => ret ([], false)
  | d :: r =>
      removed <- get ;;
      if negb removed && isTestDeclarator d then
        put true ;;
        r' <- pruneDeclarators r ;;
        ret (fst r', true)
      else
        d' <- mapDeclaratorM visit d ;;
        r' <- pruneDeclarators r ;;
        ret (d' :: fst r', snd r')
  end.

Definition pruneElement (k : node) : Eff bool (list node) :=
  match k with
  | VariableDeclaration kind ds =>
      r <- pruneDeclarators ds ;;
      ret (match r with
           | ([], true) => []
           | (ds', _) => [VariableDeclaration kind ds']
           end)
  | _ => k' <- visit k ;; ret [k']
  end.

Definition pruneArray (l : list node) : Eff bool (list node) :=
  ls <- mapM pruneElement l ;; ret (concat ls).
End Prune.

Fixpoint pruneFirst (n : node) : Eff bool node :=
  match n with
  | VariableDeclaration kind ds =>
      r <- pruneDeclarators pruneFirst ds ;;
      ret (VariableDeclaration kind (fst r))
  | _ => mapKidsM pruneFirst (pruneArray pruneFirst) n
  end.

Definition pruneFirstTop (root : program) : Eff bool program :=
  ls <- mapM (fun t =>
                match t with
                | Statement s =>
                    l <- pruneElement pruneFirst s ;; ret (map Statement l)
                | ImportDeclaration _ _ => ret [t]
                end)
             root ;;
  ret (concat ls).

Definition removeFirstTestDeclarator (root : program) : program :=
  match pruneFirstTop root false with
  | (Returned root', _) => root'
  | (Thrown _, _) => root
  end.

(** The object properties of step 3: one per member of the simple
    [identifier: type] form, [map] then [filter(Boolean)]. *)
Definition sharedContextProperties (members : list tsmember) : list node :=
  flat_map (fun member =>
              match member with
              | TSPropertySignature (KIdentifier name) _ =>
                  [ObjectProperty (Identifier name None) NullLiteral]
              | _ => []
              end)
           members.

Definition generateSharedContext (root : program) : Eff console program :=
  (* 1. get test variable *)
  let testVariableDeclarator := flat_map findTestDeclaratorsTop root in
  match testVariableDeclarator with
  | [] => console_log "No test variable found." ;; ret root
  | VariableDeclarator _ init :: _ =>
      match init with
      | Some (TSAsExpression _ (TSTypeReference _ typeParameters)) =>
          match typeParameters with
          | None | Some [] =>
              console_log "No type parameters found in TestFn." ;; ret root
          | Some (specificType :: _) =>
              let sharedContextType :=
                TSTypeAliasDeclaration "SharedContextType" specificType in
              (* 3. create shared context variable *)
              match specificType with
              | TSTypeLiteral members =>
                  let properties := sharedContextProperties members in
                  let testVariableDeclaration :=
                    VariableDeclaration "const"
                      [VariableDeclarator
                         (Identifier "sharedContext"
                            (Some (TSTypeReference "SharedContextType" None)))
                         (Some (ObjectExpression properties))] in
                  (* 4. insert test type and new variable *)
                  root' <- insertAroundTop sharedContextType
                             testVariableDeclaration root ;;
                  (* remove old variable test *)
                  ret (removeFirstTestDeclarator root')
              | _ => console_log "Invalid type literal." ;; ret root
              end
          end
      | _ => console_log "No test variable foun or invalid type." ;; ret root
      end
  end.

(** ** Pass 3: updateSharedContextReferences *)

Definition isIdentifierNamed (s : string) (n : node) : bool :=
  match n with
  | Identifier x _ => String.eqb x s
  | _ => false
  end.

Fixpoint updateSharedContextReferences_node (n : node) : node :=
  match n with
  | MemberExpression c o p =>
      if isIdentifierNamed "t" o && isIdentifierNamed "context" p
      then Identifier "sharedContext" None
      else mapKids updateSharedContextReferences_node
             (map updateSharedContextReferences_node) n
  | _ => mapKids updateSharedContextReferences_node
           (map updateSharedContextReferences_node) n
  end.

Definition onStatements (f : node -> node) (root : program) : program :=
  map (fun t => match t with
                | Statement s => Statement (f s)
                | ImportDeclaration _ _ => t
                end) root.

Definition updateSharedContextReferences (root : program) : program :=
  onStatements updateSharedContextReferences_node root.

(** ** Pass 4: adjustTestDefinitions *)

(** [list[i] = v] on an index the list has. *)
Fixpoint setNth (A : Type) (i : nat) (v : A) (l : list A) : list A :=
  match l, i with
  | [], _ => []
  | _ :: r, O => v :: r
  | x :: r, S i' => x :: setNth i' v r
  end.

Definition clearParams (f : node) : node :=
  match f with
  | ArrowFunctionExpression ps b =>
      if Nat.ltb 0 (length ps) then ArrowFunctionExpression [] b else f
  | FunctionExpression i ps b =>
      if Nat.ltb 0 (length ps) then FunctionExpression i [] b else f
  | _ => f
  end.

(** The body of [forEach]: the function is mutated where it is. *)
Definition adjustTestDefinitions_each (callee : node) (args : list node) : node :=
  match nth_error args 1 with
  | Some testFunction =>
      if Nat.ltb 1 (length args) && isFunctionValue testFunction
      then CallExpression callee (setNth 1 (clearParams testFunction) args)
      else CallExpression callee args
  | None => CallExpression callee args
  end.

(** [forEach] mutates the node objects where they are, so the calls found
    below a call are rewritten in the subtrees the call keeps; what the body
    reads of its own node (the callee's name, the number of arguments, the
    kind of the second one) is not changed by what it does to the calls
    below. *)
Fixpoint adjustTestDefinitions_node (n : node) : node :=
  match n with
  | CallExpression callee args =>
      let callee' := adjustTestDefinitions_node callee in
      let args' := map adjustTestDefinitions_node args in
      if nameIs "test" callee
      then adjustTestDefinitions_each callee' args'
      else CallExpression callee' args'
  | _ => mapKids adjustTestDefinitions_node (map adjustTestDefinitions_node) n
  end.

Definition adjustTestDefinitions (root : program) : program :=
  onStatements adjustTestDefinitions_node root.

(** ** Pass 5: updateAssertions *)

(** The filter of [find]: a callee with an [object] named ['t'] and a
    [property] whose name is not in [tPropertiesNotMapped]. *)
Definition assertionFilter (callee : node) : bool :=
  match callee with
  | MemberExpression _ o p =>
      nameIs "t" o && negb (setHas tPropertiesNotMapped (nodeName p))
  | _ => false
  end.

(** [path.value.callee.property.name] *)
Definition calleePropertyName (callee : node) : option string :=
  match callee with
  | MemberExpression _ _ p => nodeName p
  | _ => None
  end.

Definition optIs (o : option string) (s : string) : bool :=
  match o with
  | Some x => String.eqb x s
  | None => false
  end.

(** The four branches that build [newExpression]. *)
Definition newExpression {S : Type} (oldPropertyName : option string)
    (newPropertyName : jsvalue) (args : list node) : Eff S node :=
  if jsIs newPropertyName SPECIAL_BOOL then
    expect <- j_identifier (JString "expect") ;;
    expectCall <- j_callExpression expect [nth_error args 0] ;;
    matcher <- j_identifier
                 (JString (if optIs oldPropertyName "true"
                           then "toBeTruthy" else "toBeFalsy")) ;;
    member <- j_memberExpression expectCall matcher ;;
    call <- j_callExpression member [] ;;
    j_expressionStatement call
  else if jsIs newPropertyName SPECIAL_PLAN_CASE then
    expect <- j_identifier (JString "expect") ;;
    assertions <- j_identifier (JString "assertions") ;;
    member <- j_memberExpression expect assertions ;;
    call <- j_callExpression member [nth_error args 0] ;;
    j_expressionStatement call
  else if jsIs newPropertyName SPECIAL_THROWS_CASE then
    let methodName :=
      if optIs oldPropertyName "throws" then "toThrow" else "not.toThrow" in
    expect <- j_identifier (JString "expect") ;;
    block <- j_blockStatement [] ;;
    fn <- j_functionExpression None [] block ;;
    expectCall <- j_callExpression expect [Some fn] ;;
    matcher <- j_identifier (JString methodName) ;;
    member <- j_memberExpression expectCall matcher ;;
    call <- j_callExpression member
              (if Nat.ltb 1 (length args) then [nth_error args 1] else []) ;;
    j_expressionStatement call
  else
    expect <- j_identifier (JString "expect") ;;
    expectCall <- j_callExpression expect [nth_error args 0] ;;
    matcher <- j_identifier newPropertyName ;;
    jestMatcher <- j_memberExpression expectCall matcher ;;
    call <- j_callExpression jestMatcher [nth_error args 1] ;;
    j_expressionStatement call.

Definition dquote : string := String (Ascii.ascii_of_nat 34) EmptyString.

Definition notSupported (oldPropertyName : option string) : string :=
  dquote ++ propertyKey oldPropertyName ++ dquote ++ " is currently not supported".

(** The body of [forEach], up to [replaceWith]: [None] when it returns
    without replacing the call. *)
Definition updateAssertions_each (callee : node) (args : list node)
  : Eff console (option node) :=
  let oldPropertyName := calleePropertyName callee in
  let newPropertyName := getProperty tPropertiesMap oldPropertyName in
  match newPropertyName with
  | JUndefined => console_log (notSupported oldPropertyName) ;; ret None
  | _ =>
      e <- newExpression oldPropertyName newPropertyName args ;;
      ret (Some e)
  end.

(** [find] collects the paths of all matching calls before [forEach] runs,
    a call before the calls below it.  [replaceWith] puts the new node in
    the slot of the path's parent.  The new node is built from the argument
    objects of the old call in fresh arrays ([[args[0]]], [[args[1]]]): the
    calls found deeper in an argument are replaced inside that argument
    object, which the new node shares, but an argument that is itself a
    matching call is replaced in the [arguments] array of the old call, which
    the new node does not use.

    [updateAssertions_node n] returns the object [n] as the pass leaves it
    (its slots updated), and what the slot of [n] holds after the pass.  The
    body of [forEach] runs when the path of the call is reached, before the
    paths below it: it logs or throws there.  The node it builds holds the
    argument objects, so its value at the end of the pass is what the same
    builders give on those objects as the pass leaves them. *)
Fixpoint updateAssertions_node (n : node) : Eff console (node * node) :=
  let slot k := (r <- updateAssertions_node k ;; ret (snd r)) in
  match n with
  | CallExpression callee args =>
      if assertionFilter callee then
        r <- updateAssertions_each callee args ;;
        callee' <- slot callee ;;
        rs <- mapM updateAssertions_node args ;;
        let self := CallExpression callee' (map snd rs) in
        match r with
        | None => ret (self, self)
        | Some _ =>
            e <- newExpression (calleePropertyName callee)
                   (getProperty tPropertiesMap (calleePropertyName callee))
                   (map fst rs) ;;
            ret (self, e)
        end
      else
        self <- mapKidsM slot (mapM slot) n ;; ret (self, self)
  | _ => self <- mapKidsM slot (mapM slot) n ;; ret (self, self)
  end.

Definition updateAssertions (root : program) : Eff console program :=
  mapM (fun t =>
          match t with
          | Statement s => r <- updateAssertions_node s ;; ret (Statement (snd r))
          | ImportDeclaration _ _ => ret t
          end)
       root.

(** ** Pass 6: rewriteTestCallExpression *)

Definition lifecycleFilter (callee : node) : bool :=
  match callee with
  | MemberExpression _ o _ => nameIs "test" o
  | _ => false
  end.

Definition isStringLiteral (n : node) : bool :=
  match n with
  | Literal (LString _) => true
  | _ => false
  end.

(** [callback.params.shift()] under its two guards. *)
Definition shiftAssertionParam (callback : node) : node :=
  match callback with
  | ArrowFunctionExpression (p :: ps) b =>
      if nameIs "t" p then ArrowFunctionExpression ps b else callback
  | FunctionExpression i (p :: ps) b =>
      if nameIs "t" p then FunctionExpression i ps b else callback
  | _ => callback
  end.

(** The body of [forEach].  [Object.keys(table).includes(name)] followed by
    [table[name]] is the lookup of an own property. *)
Definition rewriteTestCallExpression_each (callee : node) (args : list node) : node :=
  let lifecycleMethod := calleePropertyName callee in
  if keysInclude avaToJestLifecycleMethods lifecycleMethod then
    match ownProperty avaToJestLifecycleMethods (propertyKey lifecycleMethod) with
    | Some jestEquivalent =>
        let callee' := Identifier jestEquivalent None in
        let args1 :=
          match args with
          | first :: rest => if isStringLiteral first then rest else args
          | [] => args
          end in
        match nth_error args1 1 with
        | Some callback =>
            CallExpression callee' (setNth 1 (shiftAssertionParam callback) args1)
        | None => CallExpression callee' args1
        end
    | None => CallExpression callee args
    end
  else CallExpression callee args.

Fixpoint rewriteTestCallExpression_node (n : node) : node :=
  match n with
  | CallExpression callee args =>
      let callee' := rewriteTestCallExpression_node callee in
      let args' := map rewriteTestCallExpression_node args in
      if lifecycleFilter callee
      then rewriteTestCallExpression_each callee' args'
      else CallExpression callee' args'
  | _ => mapKids rewriteTestCallExpression_node
           (map rewriteTestCallExpression_node) n
  end.

Definition rewriteTestCallExpression (root : program) : program :=
  onStatements rewriteTestCallExpression_node root.

(** ** The pipeline: the six passes of [transformer], in its order *)

Definition transformer (root : program) : Eff console program :=
  let root1 := removeImport root in
  root2 <- generateSharedContext root1 ;;
  let root3 := updateSharedContextReferences root2 in
  let root4 := adjustTestDefinitions root3 in
  root5 <- updateAssertions root4 ;;
  ret (rewriteTestCallExpression root5).

(** ** Well-formed trees

    The field types of ast-types, for the nodes of the model: what a parsed
    tree satisfies and what the printer expects. *)

Definition slotsOk (n : node) : bool :=
  match n with
  | Identifier _ _ | Literal _ | NullLiteral | TSTypeAliasDeclaration _ _ => true
  | MemberExpression _ o p => isExpression o && isExpression p
  | CallExpression c args => isExpression c && forallb isExpression args
  | ArrowFunctionExpression ps b =>
      forallb isPattern ps
      && (isExpression b || match b with BlockStatement _ => true | _ => false end)
  | FunctionExpression _ ps b =>
      forallb isPattern ps && match b with BlockStatement _ => true | _ => false end
  | ObjectExpression ps =>
      forallb (fun p => match p with ObjectProperty _ _ => true | _ => false end) ps
  | ObjectProperty k v => isExpression k && (isExpression v || isPattern v)
  | TSAsExpression e _ | AwaitExpression e | ExpressionStatement e => isExpression e
  | BlockStatement b => forallb isStatement b
  | ReturnStatement a => match a with Some e => isExpression e | None => true end
  | VariableDeclaration _ ds =>
      forallb (fun d => match d with
                        | VariableDeclarator i init =>
                            isPattern i
                            && match init with Some e => isExpression e | None => true end
                        end) ds
  end.

Fixpoint wellFormed (n : node) : bool :=
  slotsOk n && allKids wellFormed wellFormed n.

Definition wellFormedProgram (root : program) : bool :=
  forallb (fun t => match t with
                    | Statement s => isStatement s && wellFormed s
                    | ImportDeclaration _ _ => true
                    end) root.

(** * Predicates used by the statements *)

(** A computation that returns [a] and leaves the state as it is. *)
Definition pure_as {S A : Type} (m : Eff S A) (a : A) : Prop :=
  forall s, m s = (Returned a, s).

(** [m], started in state [s], returns [a] in state [s']. *)
Definition runs {S A : Type} (m : Eff S A) (s : S) (a : A) (s' : S) : Prop :=
  m s = (Returned a, s').

(** The children of a node, as a predicate:

    [Forall_kids Ps Pa n]: [Ps] holds of the nodes in the scalar slots of [n]
    (those of its declarators included) and [Pa] of each of its arrays. *)

Definition Forall_kids (Ps : node -> Prop) (Pa : list node -> Prop) (n : node) : Prop :=
  match n with
  | Identifier _ _ | Literal _ | NullLiteral | TSTypeAliasDeclaration _ _ => True
  | MemberExpression _ o p => Ps o /\ Ps p
  | CallExpression c args => Ps c /\ Pa args
  | ArrowFunctionExpression l b | FunctionExpression _ l b => Pa l /\ Ps b
  | ObjectExpression l | BlockStatement l => Pa l
  | ObjectProperty k v => Ps k /\ Ps v
  | TSAsExpression e _ | AwaitExpression e | ExpressionStatement e => Ps e
  | ReturnStatement a => Forall_opt Ps a
  | VariableDeclaration _ ds => Forall (Forall_declarator Ps) ds
  end.

(** No call below (or at) [n] matches the filter of [updateAssertions]. *)
Fixpoint noAssertionCall (n : node) : bool :=
  match n with
  | CallExpression callee _ => negb (assertionFilter callee)
  | _ => true
  end && allKids noAssertionCall noAssertionCall n.

(** No member access [t.context] below (or at) [n]. *)
Fixpoint noContextAccess (n : node) : bool :=
  match n with
  | MemberExpression _ o p =>
      negb (isIdentifierNamed "t" o && isIdentifierNamed "context" p)
  | _ => true
  end && allKids noContextAccess noContextAccess n.

Definition noContextAccessTop (t : toplevel) : bool :=
  match t with
  | Statement s => noContextAccess s
  | ImportDeclaration _ _ => true
  end.

(** The ways the structural precondition of [generateSharedContext] fails:
    no test variable; a first test variable whose initializer is not a type
    assertion to a type reference; no type parameters on that reference; a
    first type parameter that is not a type literal. *)
Inductive preconditionFails (root : program) : Prop :=
| NoTestVariable :
    flat_map findTestDeclaratorsTop root = [] ->
    preconditionFails root
| NoTypeAssertion (i : node) (init : option node) (rest : list declarator) :
    flat_map findTestDeclaratorsTop root = VariableDeclarator i init :: rest ->
    (forall e name typeParameters,
        init <> Some (TSAsExpression e (TSTypeReference name typeParameters))) ->
    preconditionFails root
| NoTypeParameters (i e : node) (name : string) (typeParameters : option (list tstype))
    (rest : list declarator) :
    flat_map findTestDeclaratorsTop root =
      VariableDeclarator i (Some (TSAsExpression e (TSTypeReference name typeParameters)))
        :: rest ->
    typeParameters = None \/ typeParameters = Some [] ->
    preconditionFails root
| NotATypeLiteral (i e : node) (name : string) (specificType : tstype)
    (others : list tstype) (rest : list declarator) :
    flat_map findTestDeclaratorsTop root =
      VariableDeclarator i
        (Some (TSAsExpression e (TSTypeReference name (Some (specificType :: others)))))
        :: rest ->
    (forall members, specificType <> TSTypeLiteral members) ->
    preconditionFails root.

(** A file with two imports from the origin package. *)
Definition twoAvaImports : program :=
  [ ImportDeclaration ["anyTest"] (LString "ava");
    ImportDeclaration ["TestFn"] (LString "ava");
    Statement (ExpressionStatement (CallExpression (Identifier "run" None) [])) ].

(** [test.before('setup', (t) => {})] *)
Definition beforeHook : program :=
  [ Statement
      (ExpressionStatement
         (CallExpression
            (MemberExpression false (Identifier "test" None) (Identifier "before" None))
            [ Literal (LString "setup");
              ArrowFunctionExpression [Identifier "t" None] (BlockStatement []) ])) ].

(** [t.toString()], as a statement. *)
Definition inheritedName : program :=
  [ Statement
      (ExpressionStatement
         (CallExpression
            (MemberExpression false (Identifier "t" None) (Identifier "toString" None))
            [])) ].

(** [test('works', (t) => t.is(1, 1))] *)
Definition assertionAsArrowBody : program :=
  [ Statement
      (ExpressionStatement
         (CallExpression (Identifier "test" None)
            [ Literal (LString "works");
              ArrowFunctionExpression [Identifier "t" None]
                (CallExpression
                   (MemberExpression false (Identifier "t" None) (Identifier "is" None))
                   [Literal (LNumber 1); Literal (LNumber 1)]) ])) ].

(** What the assertion pass returns on [assertionAsArrowBody]. *)
Definition assertionAsArrowBody_out : program :=
  [ Statement
      (ExpressionStatement
         (CallExpression (Identifier "test" None)
            [ Literal (LString "works");
              ArrowFunctionExpression [Identifier "t" None]
                (ExpressionStatement
                   (CallExpression
                      (MemberExpression false
                         (CallExpression (Identifier "expect" None)
                            [Literal (LNumber 1)])
                         (Identifier "toBe" None))
                      [Literal (LNumber 1)])) ])) ].

(** [const test = anyTest as TestFn<context>] *)
Definition testVariable (context : tstype) : node :=
  VariableDeclaration "const"
    [VariableDeclarator (Identifier "test" None)
       (Some (TSAsExpression (Identifier "anyTest" None)
                (TSTypeReference "TestFn" (Some [context]))))].

(** [const test = anyTest as TestFn<{ a: number }>] followed by a block
    that declares a second [test] the same way, with [{ b: string }]. *)
Definition twoTestVariables : program :=
  [ Statement
      (testVariable
         (TSTypeLiteral [TSPropertySignature (KIdentifier "a") (Some (TSKeyword "number"))]));
    Statement
      (BlockStatement
         [testVariable
            (TSTypeLiteral
               [TSPropertySignature (KIdentifier "b") (Some (TSKeyword "string"))])]) ].

(** [t.is(t.is(a, b), c)], as a statement. *)
Definition nestedAssertion : program :=
  [ Statement
      (ExpressionStatement
         (CallExpression
            (MemberExpression false (Identifier "t" None) (Identifier "is" None))
            [ CallExpression
                (MemberExpression false (Identifier "t" None) (Identifier "is" None))
                [Identifier "a" None; Identifier "b" None];
              Identifier "c" None ])) ].






(** [test: <annotation> = <e> as <name><<context>>], and its declaration. *)
Definition typedTestDeclarator (name : string) (annotation : option tstype)
    (e : node) (context : tstype) : declarator :=
  VariableDeclarator (Identifier "test" annotation)
    (Some (TSAsExpression e (TSTypeReference name (Some [context])))).

Definition typedTestDeclaration (kind name : string) (annotation : option tstype)
    (e : node) (context : tstype) : node :=
  VariableDeclaration kind [typedTestDeclarator name annotation e context].

(** Passes 2, 3 and 4, in the order in which [transformer] runs them. *)
Definition sharedContextPasses (root : program) : Eff console program :=
  root2 <- generateSharedContext root ;;
  ret (adjustTestDefinitions (updateSharedContextReferences root2)).

(** [{ a: number, b: string }] *)
Definition contextAB : tstype :=
  TSTypeLiteral
    [ TSPropertySignature (KIdentifier "a") (Some (TSKeyword "number"));
      TSPropertySignature (KIdentifier "b") (Some (TSKeyword "string")) ].

(** [type SharedContextType = { a: number, b: string }] *)
Definition sharedContextAliasAB : node :=
  TSTypeAliasDeclaration "SharedContextType" contextAB.

(** [const sharedContext: SharedContextType = { a: null, b: null }] *)
Definition sharedContextVariableAB : node :=
  VariableDeclaration "const"
    [VariableDeclarator
       (Identifier "sharedContext" (Some (TSTypeReference "SharedContextType" None)))
       (Some (ObjectExpression
                [ ObjectProperty (Identifier "a" None) NullLiteral;
                  ObjectProperty (Identifier "b" None) NullLiteral ]))].

(** What passes 3 and 4 make of a statement. *)
Definition rewriteReferences (s : node) : node :=
  adjustTestDefinitions_node (updateSharedContextReferences_node s).

(** * The code beside the claims *)

(** ** getIdentifierFromExpression

    [node.object] is [undefined] on a node without that field, and the
    recursive call on [undefined] returns [null]. *)
Fixpoint getIdentifierFromExpression_node (n : node) : option node :=
  match n with
  | Identifier _ _ => Some n
  | MemberExpression _ object _ => getIdentifierFromExpression_node object
  | _ => None
  end.

(** The argument is [None] when the caller passes [undefined] or [null]. *)
Definition getIdentifierFromExpression (n : option node) : option node :=
  match n with
  | None => None
  | Some n' => getIdentifierFromExpression_node n'
  end.

(** [root.p1.p2...]: member accesses stacked on [root], innermost first. *)
Definition memberChain (root : node) (properties : list (bool * node)) : node :=
  fold_left (fun object cp => MemberExpression (fst cp) object (snd cp)) properties root.

(** ** Trees a pass has nothing to do on *)

Definition hasParams (f : node) : bool :=
  match f with
  | ArrowFunctionExpression (_ :: _) _ | FunctionExpression _ (_ :: _) _ => true
  | _ => false
  end.

(** No call [test(x, fn, ...)] below (or at) [n] whose [fn] is a function with
    parameters. *)
Fixpoint adjusted (n : node) : bool :=
  match n with
  | CallExpression callee args =>
      negb (nameIs "test" callee
            && match nth_error args 1 with
               | Some f => hasParams f
               | None => false
               end)
  | _ => true
  end && allKids adjusted adjusted n.

(** No call [test.<name>(...)] below (or at) [n] with [name] a key of
    [avaToJestLifecycleMethods]. *)
Fixpoint noLifecycleCall (n : node) : bool :=
  match n with
  | CallExpression callee _ =>
      negb (lifecycleFilter callee
            && keysInclude avaToJestLifecycleMethods (calleePropertyName callee))
  | _ => true
  end && allKids noLifecycleCall noLifecycleCall n.

Definition onTop (p : node -> bool) (t : toplevel) : bool :=
  match t with
  | Statement s => p s
  | ImportDeclaration _ _ => true
  end.

Definition isImport (t : toplevel) : bool :=
  match t with
  | ImportDeclaration _ _ => true
  | Statement _ => false
  end.

(** ** What [generateSharedContext] inserts *)

(** [type SharedContextType = <specificType>] *)
Definition sharedContextAlias (specificType : tstype) : node :=
  TSTypeAliasDeclaration "SharedContextType" specificType.

(** [const sharedContext: SharedContextType = { <properties> }] *)
Definition sharedContextVariable (properties : list node) : node :=
  VariableDeclaration "const"
    [VariableDeclarator
       (Identifier "sharedContext" (Some (TSTypeReference "SharedContextType" None)))
       (Some (ObjectExpression properties))].

(** The names of the members of the simple [identifier: type] form. *)
Definition simpleMemberNames (members : list tsmember) : list string :=
  flat_map (fun member =>
              match member with
              | TSPropertySignature (KIdentifier name) _ => [name]
              | _ => []
              end)
           members.

(** [f] leaves in a slot a node of a kind the slot takes, when the slot
    held one: the kinds are those [slotsOk] asks of a slot. *)
Definition keepsKinds (f : node -> node) : Prop :=
  forall k : node,
    (isExpression k = true -> isExpression (f k) = true)
    /\ (isStatement k = true -> isStatement (f k) = true)
    /\ (isPattern k = true -> isPattern (f k) = true)
    /\ (match k with BlockStatement _ => true | _ => false end = true ->
        match f k with BlockStatement _ => true | _ => false end = true)
    /\ (match k with ObjectProperty _ _ => true | _ => false end = true ->
        match f k with ObjectProperty _ _ => true | _ => false end = true).

(** * Properties *)

(** ** Computations that neither throw nor touch the state *)

Lemma pure_ret {S A : Type} (a : A) : pure_as (S := S) (ret a) a.
Proof. intro s. reflexivity. Qed.

Lemma bind_pure {S A B : Type} (m : Eff S A) (k : A -> Eff S B) (a : A) :
  pure_as m a -> forall s, bind m k s = k a s.
Proof. intros H s. unfold bind. rewrite H. reflexivity. Qed.

Lemma pure_bind {S A B : Type} (m : Eff S A) (k : A -> Eff S B) (a : A) (b : B) :
  pure_as m a -> pure_as (k a) b -> pure_as (bind m k) b.
Proof. intros Hm Hk s. rewrite (bind_pure _ Hm). apply Hk. Qed.

Lemma mapM_pure {S A B : Type} (f : A -> Eff S B) (g : A -> B) (l : list A) :
  Forall (fun x => pure_as (f x) (g x)) l -> pure_as (mapM f l) (map g l).
Proof.
  induction 1 as [|x r Hx _ IH]; simpl.
  - apply pure_ret.
  - eapply pure_bind; [exact Hx|].
    eapply pure_bind; [exact IH|]. apply pure_ret.
Qed.

Lemma optM_pure {S A B : Type} (f : A -> Eff S B) (g : A -> B) (o : option A) :
  Forall_opt (fun x => pure_as (f x) (g x)) o -> pure_as (optM f o) (option_map g o).
Proof.
  destruct o as [a|]; simpl; intro H.
  - eapply pure_bind; [exact H|]. apply pure_ret.
  - apply pure_ret.
Qed.

(** ** Induction on the children of a node *)

Lemma node_kids_ind (P : node -> Prop) :
  (forall n, Forall_kids P (Forall P) n -> P n) -> forall n, P n.
Proof.
  intro H. induction n using node_induction; apply H; simpl; auto.
Qed.

Lemma Forall_kids_impl (Ps Qs : node -> Prop) (Pa Qa : list node -> Prop) n :
  (forall k, Ps k -> Qs k) -> (forall l, Pa l -> Qa l) ->
  Forall_kids Ps Pa n -> Forall_kids Qs Qa n.
Proof.
  intros Hs Ha. destruct n; simpl; intuition auto.
  - destruct argument; simpl in *; auto.
  - eapply Forall_impl; [|eassumption].
    intros [i init] [Hi Hinit]. split; auto.
    destruct init; simpl in *; auto.
Qed.

Lemma Forall_declarators_and (Ps Qs : node -> Prop) (ds : list declarator) :
  Forall (Forall_declarator Ps) ds -> Forall (Forall_declarator Qs) ds ->
  Forall (Forall_declarator (fun k => Ps k /\ Qs k)) ds.
Proof.
  induction 1 as [|[i init] r [Hi Hinit] _ IH]; intro HQ.
  - constructor.
  - inversion HQ as [|? ? Hd Hr]; subst. destruct Hd as [Hi' Hinit'].
    constructor; auto. split; auto.
    destruct init; simpl in *; auto.
Qed.

Lemma Forall_kids_and (Ps Qs : node -> Prop) (Pa Qa : list node -> Prop) n :
  Forall_kids Ps Pa n -> Forall_kids Qs Qa n ->
  Forall_kids (fun k => Ps k /\ Qs k) (fun l => Pa l /\ Qa l) n.
Proof.
  destruct n; simpl; try tauto.
  - destruct argument; simpl; tauto.
  - apply Forall_declarators_and.
Qed.

Lemma allKids_Forall_kids (ps pa : node -> bool) n :
  allKids ps pa n = true ->
  Forall_kids (fun k => ps k = true) (fun l => forallb pa l = true) n.
Proof.
  destruct n; simpl; rewrite ?andb_true_iff; intuition auto.
  - destruct argument; simpl; auto.
  - rewrite forallb_forall in H. apply Forall_forall.
    intros [i init] Hin. specialize (H _ Hin). simpl in H.
    apply andb_true_iff in H. destruct H. split; auto.
    destruct init; simpl; auto.
Qed.

Lemma Forall_kids_allKids (ps pa : node -> bool) n :
  Forall_kids (fun k => ps k = true) (fun l => forallb pa l = true) n ->
  allKids ps pa n = true.
Proof.
  destruct n; simpl; rewrite ?andb_true_iff; intuition auto.
  - destruct argument; simpl in *; auto.
  - apply forallb_forall. rewrite Forall_forall in H.
    intros [i init] Hin. specialize (H _ Hin). simpl in H. destruct H.
    apply andb_true_iff. split; auto.
    destruct init; simpl in *; auto.
Qed.

Lemma forallb_Forall (A : Type) (p : A -> bool) (l : list A) :
  forallb p l = true <-> Forall (fun x => p x = true) l.
Proof. rewrite forallb_forall, Forall_forall. reflexivity. Qed.

Lemma mapKidsM_pure {S : Type} (f : node -> Eff S node) (g : list node -> Eff S (list node))
    (f' : node -> node) (g' : list node -> list node) (n : node) :
  Forall_kids (fun k => pure_as (f k) (f' k)) (fun l => pure_as (g l) (g' l)) n ->
  pure_as (mapKidsM f g n) (mapKids f' g' n).
Proof.
  destruct n; simpl; intros H;
    repeat match goal with
           | H : _ /\ _ |- _ => destruct H
           end;
    try apply pure_ret;
    repeat (eapply pure_bind; [eassumption|]); try apply pure_ret.
  - eapply pure_bind; [apply optM_pure; eassumption|]. apply pure_ret.
  - eapply pure_bind; [|apply pure_ret].
    apply mapM_pure. eapply Forall_impl; [|eassumption].
    intros [i init] [Hi Hinit]. simpl.
    eapply pure_bind; [exact Hi|].
    eapply pure_bind; [apply optM_pure; exact Hinit|]. apply pure_ret.
Qed.

Lemma mapKids_id (f : node -> node) (g : list node -> list node) (n : node) :
  Forall_kids (fun k => f k = k) (fun l => g l = l) n -> mapKids f g n = n.
Proof.
  destruct n; simpl; intros H;
    repeat match goal with
           | H : _ /\ _ |- _ => destruct H
           end;
    try congruence.
  - destruct argument; simpl in *; congruence.
  - f_equal. induction H as [|[i init] r [Hi Hinit] _ IH]; simpl; [reflexivity|].
    rewrite IH, Hi. destruct init; simpl in *; congruence.
Qed.

Lemma mapKids_same (n : node) : mapKids (fun k => k) (fun l => l) n = n.
Proof.
  apply mapKids_id. destruct n; simpl; auto.
  - destruct argument; simpl; auto.
  - apply Forall_forall. intros [i init] _. split; auto.
    destruct init; simpl; auto.
Qed.

Lemma mapKidsM_pure_id {S : Type} (f : node -> Eff S node)
    (g : list node -> Eff S (list node)) (n : node) :
  Forall_kids (fun k => pure_as (f k) k) (fun l => pure_as (g l) l) n ->
  pure_as (mapKidsM f g n) n.
Proof.
  intros H s. rewrite (mapKidsM_pure f g (fun k => k) (fun l => l) n H s).
  rewrite mapKids_same. reflexivity.
Qed.

(** ** The assertion pass on subtrees without assertion calls *)

Lemma noAssertionCall_kids (n : node) :
  noAssertionCall n = true ->
  Forall_kids (fun k => noAssertionCall k = true)
    (Forall (fun k => noAssertionCall k = true)) n.
Proof.
  intro H.
  assert (Hk : allKids noAssertionCall noAssertionCall n = true).
  { destruct n; try exact H.
    change (negb (assertionFilter n) && allKids noAssertionCall noAssertionCall
              (CallExpression n arguments) = true) in H.
    apply andb_true_iff in H. apply H. }
  apply allKids_Forall_kids in Hk.
  eapply Forall_kids_impl; [| |exact Hk]; simpl; auto.
  intros l Hl. apply forallb_Forall. exact Hl.
Qed.

Lemma updateAssertions_node_kids (n : node) :
  Forall_kids (fun k => pure_as (updateAssertions_node k) (k, k))
    (Forall (fun k => pure_as (updateAssertions_node k) (k, k))) n ->
  pure_as
    (mapKidsM (fun k => r <- updateAssertions_node k ;; ret (snd r))
       (mapM (fun k => r <- updateAssertions_node k ;; ret (snd r))) n)
    n.
Proof.
  intro H.
  rewrite <- (mapKids_id (fun k => k) (fun l => map (fun k => k) l) n) at 2.
  - apply mapKidsM_pure. eapply Forall_kids_impl; [| |exact H]; simpl.
    + intros k Hk. eapply pure_bind; [exact Hk|]. apply pure_ret.
    + intros l Hl. apply mapM_pure. eapply Forall_impl; [|exact Hl].
      intros k Hk. eapply pure_bind; [exact Hk|]. apply pure_ret.
  - eapply Forall_kids_impl; [| |exact H]; simpl; auto.
    intros l _. apply map_id.
Qed.

Lemma updateAssertions_node_noAssertionCall (n : node) :
  noAssertionCall n = true -> pure_as (updateAssertions_node n) (n, n).
Proof.
  induction n as [n IH] using node_kids_ind. intro Hn.
  assert (Hkids : pure_as
            (mapKidsM (fun k => r <- updateAssertions_node k ;; ret (snd r))
               (mapM (fun k => r <- updateAssertions_node k ;; ret (snd r))) n) n).
  { apply updateAssertions_node_kids.
    pose proof (Forall_kids_and _ _ _ _ _ IH (noAssertionCall_kids _ Hn)) as H.
    eapply Forall_kids_impl; [| |exact H]; simpl.
    - intros k [H1 H2]. auto.
    - intros l [H1 H2]. rewrite Forall_forall in *. auto. }
  destruct n; simpl;
    try (eapply pure_bind; [exact Hkids|]; apply pure_ret).
  change (negb (assertionFilter n) && allKids noAssertionCall noAssertionCall
            (CallExpression n arguments) = true) in Hn.
  apply andb_true_iff in Hn. destruct Hn as [Hf _].
  apply negb_true_iff in Hf. rewrite Hf.
  eapply pure_bind; [exact Hkids|]. apply pure_ret.
Qed.

Lemma updateAssertions_unmatched (root : program) :
  forallb (onTop noAssertionCall) root = true ->
  pure_as (updateAssertions root) root.
Proof.
  intros H c. unfold updateAssertions.
  rewrite <- (map_id root) at 2.
  apply mapM_pure. apply forallb_Forall in H.
  eapply Forall_impl; [|exact H].
  intros [sp src|s] Ht; simpl in *.
  - apply pure_ret.
  - eapply pure_bind; [apply updateAssertions_node_noAssertionCall; exact Ht|].
    apply pure_ret.
Qed.

Lemma updateAssertions_node_call (callee : node) (args : list node) :
  updateAssertions_node (CallExpression callee args) =
  let slot k := (r <- updateAssertions_node k ;; ret (snd r)) in
  if assertionFilter callee then
    r <- updateAssertions_each callee args ;;
    callee' <- slot callee ;;
    rs <- mapM updateAssertions_node args ;;
    let self := CallExpression callee' (map snd rs) in
    match r with
    | None => ret (self, self)
    | Some _ =>
        e <- newExpression (calleePropertyName callee)
               (getProperty tPropertiesMap (calleePropertyName callee))
               (map fst rs) ;;
        ret (self, e)
    end
  else
    self <- mapKidsM slot (mapM slot) (CallExpression callee args) ;;
    ret (self, self).
Proof. reflexivity. Qed.

Lemma map_fst_dup (A : Type) (l : list A) : map fst (map (fun k => (k, k)) l) = l.
Proof. induction l; simpl; congruence. Qed.

Lemma map_snd_dup (A : Type) (l : list A) : map snd (map (fun k => (k, k)) l) = l.
Proof. induction l; simpl; congruence. Qed.

(** A matching call whose name the table maps, over arguments without
    assertion calls: the slot gets what the builders make of the arguments. *)
Lemma updateAssertions_node_mapped (computed : bool) (a a' : option tstype)
    (name : string) (args : list node) (e : node) :
  setHas tPropertiesNotMapped (Some name) = false ->
  getProperty tPropertiesMap (Some name) <> JUndefined ->
  Forall (fun k => noAssertionCall k = true) args ->
  pure_as (S := console)
    (newExpression (Some name) (getProperty tPropertiesMap (Some name)) args) e ->
  pure_as
    (updateAssertions_node
       (CallExpression (MemberExpression computed (Identifier "t" a) (Identifier name a')) args))
    (CallExpression (MemberExpression computed (Identifier "t" a) (Identifier name a')) args, e).
Proof.
  intros Hset Hget Hargs Hnew.
  rewrite updateAssertions_node_call.
  cbv zeta.
  replace (assertionFilter (MemberExpression computed (Identifier "t" a) (Identifier name a')))
    with true by (simpl; simpl in Hset; rewrite Hset; reflexivity).
  assert (Heach : pure_as
            (updateAssertions_each
               (MemberExpression computed (Identifier "t" a) (Identifier name a')) args)
            (Some e)).
  { unfold updateAssertions_each. simpl calleePropertyName.
    destruct (getProperty tPropertiesMap (Some name)) eqn:E; try congruence;
      (eapply pure_bind; [exact Hnew|]; apply pure_ret). }
  eapply pure_bind; [exact Heach|].
  eapply pure_bind.
  { eapply pure_bind; [|apply pure_ret].
    apply (updateAssertions_node_noAssertionCall
             (MemberExpression computed (Identifier "t" a) (Identifier name a'))).
    reflexivity. }
  eapply pure_bind.
  { apply mapM_pure with (g := fun k => (k, k)).
    eapply Forall_impl; [|exact Hargs].
    intros k Hk. apply updateAssertions_node_noAssertionCall. exact Hk. }
  rewrite map_fst_dup, map_snd_dup. simpl.
  eapply pure_bind; [exact Hnew|]. apply pure_ret.
Qed.

Lemma jsIs_JString_neq (s t : string) : s <> t -> jsIs (JString s) t = false.
Proof. intro H. simpl. apply String.eqb_neq. exact H. Qed.

Lemma ownProperty_In (obj : list (string * string)) (k v : string) :
  ownProperty obj k = Some v -> In (k, v) obj.
Proof.
  induction obj as [|[k' v'] r IH]; simpl; [discriminate|].
  destruct (String.eqb k k') eqn:E.
  - apply String.eqb_eq in E. intro H. inversion H. subst. left. reflexivity.
  - intro H. right. apply IH. exact H.
Qed.

Lemma getProperty_own (obj : list (string * string)) (k v : string) :
  ownProperty obj k = Some v -> getProperty obj (Some k) = JString v.
Proof. intro H. unfold getProperty. simpl. rewrite H. reflexivity. Qed.

Lemma newExpression_plain {S : Type} (old : option string) (mapped : string)
    (p q : node) (rest : list node) :
  mapped <> SPECIAL_BOOL -> mapped <> SPECIAL_PLAN_CASE ->
  mapped <> SPECIAL_THROWS_CASE ->
  isExpression p = true -> isExpression q = true ->
  pure_as (S := S) (newExpression old (JString mapped) (p :: q :: rest))
    (ExpressionStatement
       (CallExpression
          (MemberExpression false
             (CallExpression (Identifier "expect" None) [p])
             (Identifier mapped None))
          [q])).
Proof.
  intros Hb Hp Ht Ep Eq s.
  unfold newExpression.
  rewrite (jsIs_JString_neq Hb), (jsIs_JString_neq Hp), (jsIs_JString_neq Ht).
  unfold bind, j_identifier, j_callExpression, j_memberExpression,
    j_expressionStatement, ret, lift; simpl.
  rewrite Ep, Eq. reflexivity.
Qed.




(** ** removeImport *)

Lemma removeImport_app (l1 l2 : program) :
  removeImport (l1 ++ l2) = removeImport l1 ++ removeImport l2.
Proof. unfold removeImport. apply filter_app. Qed.

Lemma removeImport_length (root : program) :
  length (removeImport root) + length (filter isAvaImport root) = length root.
Proof.
  unfold removeImport. induction root as [|t r IH]; simpl; [reflexivity|].
  destruct (isAvaImport t); simpl; lia.
Qed.

Lemma removeImport_none (root : program) :
  filter isAvaImport root = [] -> removeImport root = root.
Proof.
  unfold removeImport. induction root as [|t r IH]; simpl; [reflexivity|].
  destruct (isAvaImport t); simpl; [discriminate|].
  intro H. rewrite IH by exact H. reflexivity.
Qed.

Lemma removeImport_clean (root : program) :
  filter isAvaImport (removeImport root) = [].
Proof.
  unfold removeImport. induction root as [|t r IH]; simpl; [reflexivity|].
  destruct (isAvaImport t) eqn:E; simpl; [exact IH|].
  rewrite E. exact IH.
Qed.

(** C8, as the spec states it: the tree shrinks by zero or one top-level
    statement on every input.  With two imports from ['ava'] it shrinks by
    two. *)
Lemma removeImport_shrinks_by_two :
  length (removeImport twoAvaImports) + 2 = length twoAvaImports
  /\ ~ (length twoAvaImports <= length (removeImport twoAvaImports) + 1).
Proof. split; [reflexivity|]. simpl. lia. Qed.

(** C8, amended.  [removeImport] deletes every import declaration whose
    source is ['ava']: none is left, and the tree shrinks by the number of
    such declarations (so by zero or one when the file has at most one).
    Without such an import the pass is a no-op; it is idempotent on every
    input; every other top-level statement is kept as it is, in its place
    among the others. *)
Theorem removeImport_frame :
  forall root : program,
    filter isAvaImport (removeImport root) = []
    /\ length (removeImport root) + length (filter isAvaImport root) = length root
    /\ (filter isAvaImport root = [] -> removeImport root = root)
    /\ removeImport (removeImport root) = removeImport root
    /\ (forall pre t post,
           root = pre ++ t :: post ->
           removeImport root =
           removeImport pre ++ (if isAvaImport t then [] else [t]) ++ removeImport post).
Proof.
  intro root. repeat split.
  - apply removeImport_clean.
  - apply removeImport_length.
  - apply removeImport_none.
  - apply removeImport_none. apply removeImport_clean.
  - intros pre t post ->. rewrite removeImport_app. f_equal.
    change (t :: post) with ([t] ++ post). rewrite removeImport_app. f_equal.
    unfold removeImport. simpl. destruct (isAvaImport t); reflexivity.
Qed.

Lemma removeImport_frame_witness :
  removeImport
    [ ImportDeclaration ["test"] (LString "ava");
      Statement (ExpressionStatement (CallExpression (Identifier "run" None) [])) ] =
  [] ++ [] ++ [Statement (ExpressionStatement (CallExpression (Identifier "run" None) []))].
Proof.
  apply (proj2 (proj2 (proj2 (proj2
           (removeImport_frame
              [ ImportDeclaration ["test"] (LString "ava");
                Statement (ExpressionStatement
                             (CallExpression (Identifier "run" None) [])) ]))))
           [] (ImportDeclaration ["test"] (LString "ava"))
           [Statement (ExpressionStatement (CallExpression (Identifier "run" None) []))]).
  reflexivity.
Defined.

(** ** generateSharedContext: the soft aborts *)

(** C5.  When a structural precondition of [generateSharedContext] fails (no
    test variable, an initializer that is no type assertion to a type
    reference, no type parameters, a type parameter that is no type
    literal), the pass returns the tree it was given, nothing removed and
    nothing inserted, and writes one line to the console. *)
Theorem generateSharedContext_soft_abort :
  forall (root : program) (c : console),
    preconditionFails root ->
    exists msg, generateSharedContext root c = (Returned root, c ++ [msg]).
Proof.
  intros root c H. unfold generateSharedContext.
  destruct H as [H | i init rest H Hinit | i e name tp rest H Htp
                 | i e name ty others rest H Hty]; rewrite H.
  - eexists. reflexivity.
  - destruct init as [[]|]; try (eexists; reflexivity).
    destruct typeAnnotation; try (eexists; reflexivity).
    exfalso. eapply Hinit. reflexivity.
  - destruct Htp; subst; eexists; reflexivity.
  - destruct ty; try (eexists; reflexivity).
    exfalso. eapply Hty. reflexivity.
Qed.

Lemma generateSharedContext_soft_abort_witness :
  exists msg,
    generateSharedContext
      [Statement (VariableDeclaration "const"
                    [VariableDeclarator (Identifier "test" None)
                       (Some (TSAsExpression (Identifier "anyTest" None)
                                (TSTypeReference "TestFn" None)))])] [] =
    (Returned
       [Statement (VariableDeclaration "const"
                     [VariableDeclarator (Identifier "test" None)
                        (Some (TSAsExpression (Identifier "anyTest" None)
                                 (TSTypeReference "TestFn" None)))])],
     [] ++ [msg]).
Proof.
  apply generateSharedContext_soft_abort.
  eapply NoTypeParameters; [reflexivity|]. left. reflexivity.
Defined.

(** ** The lifecycle pass on [test.before('title', fn)] *)

Lemma rewriteTestCallExpression_each_titled (a a' : option tstype)
    (name jestEquivalent title : string) (callback : node) :
  ownProperty avaToJestLifecycleMethods name = Some jestEquivalent ->
  rewriteTestCallExpression_each
    (MemberExpression false (Identifier "test" a) (Identifier name a'))
    [Literal (LString title); callback] =
  CallExpression (Identifier jestEquivalent None) [callback].
Proof.
  intro H. unfold rewriteTestCallExpression_each. simpl calleePropertyName.
  simpl propertyKey. rewrite H.
  replace (keysInclude avaToJestLifecycleMethods (Some name)) with true.
  - reflexivity.
  - apply ownProperty_In in H. simpl in H.
    repeat (destruct H as [H|H]; [inversion H; subst; reflexivity|]).
    contradiction.
Qed.

(** C2.  On [test.before('setup', (t) => {})] the lifecycle pass renames the
    callee to [beforeAll] and drops the title, and then looks for the
    callback at index 1 of the shortened argument list, where nothing is
    left: the callback keeps its parameter [t], in the pass alone and at the
    end of the whole pipeline.  So it is for every title and every callback:
    the body of [forEach] returns [beforeAll(callback)] with the callback as
    it was. *)
Theorem before_hook_keeps_parameter :
  rewriteTestCallExpression beforeHook =
  [ Statement
      (ExpressionStatement
         (CallExpression (Identifier "beforeAll" None)
            [ArrowFunctionExpression [Identifier "t" None] (BlockStatement [])])) ]
  /\ fst (transformer beforeHook []) =
     Returned
       [ Statement
           (ExpressionStatement
              (CallExpression (Identifier "beforeAll" None)
                 [ArrowFunctionExpression [Identifier "t" None] (BlockStatement [])])) ]
  /\ (forall (title : string) (callback : node),
         rewriteTestCallExpression_each
           (MemberExpression false (Identifier "test" None) (Identifier "before" None))
           [Literal (LString title); callback] =
         CallExpression (Identifier "beforeAll" None) [callback]).
Proof.
  split; [reflexivity|]. split; [reflexivity|].
  intros title callback. apply rewriteTestCallExpression_each_titled. reflexivity.
Qed.

(** ** The assertion pass: names the table does not map *)

(** A matching call under a name for which the table answers [undefined],
    over arguments without assertion calls: the call stays and the console
    gets one line. *)
Lemma updateAssertions_node_unmapped (computed : bool) (a a' : option tstype)
    (name : string) (args : list node) (c : console) :
  setHas tPropertiesNotMapped (Some name) = false ->
  getProperty tPropertiesMap (Some name) = JUndefined ->
  Forall (fun k => noAssertionCall k = true) args ->
  let call :=
    CallExpression (MemberExpression computed (Identifier "t" a) (Identifier name a')) args in
  updateAssertions_node call c = (Returned (call, call), c ++ [notSupported (Some name)]).
Proof.
  intros Hset Hget Hargs call. unfold call.
  rewrite updateAssertions_node_call. cbv zeta.
  replace (assertionFilter (MemberExpression computed (Identifier "t" a) (Identifier name a')))
    with true by (simpl; simpl in Hset; rewrite Hset; reflexivity).
  unfold updateAssertions_each. simpl calleePropertyName. rewrite Hget.
  match goal with
  | |- bind (bind (console_log ?m) ?k1) ?k2 c = _ =>
      change (bind (bind (console_log m) k1) k2 c) with (k2 None (c ++ [m]))
  end.
  cbv beta.
  eapply pure_bind.
  { eapply pure_bind; [|apply pure_ret].
    apply (updateAssertions_node_noAssertionCall
             (MemberExpression computed (Identifier "t" a) (Identifier name a'))).
    reflexivity. }
  eapply pure_bind.
  { apply mapM_pure with (g := fun k => (k, k)).
    eapply Forall_impl; [|exact Hargs].
    intros k Hk. apply updateAssertions_node_noAssertionCall. exact Hk. }
  rewrite map_snd_dup. apply pure_ret.
Qed.

(** C3.  [toString] is neither excluded nor a key of the rule table, but
    [tPropertiesMap['toString']] is the function every object inherits, not
    [undefined]: the pass takes the rename branch and the builders throw.
    No diagnostic is written and no tree comes out. *)
Theorem inherited_name_throws :
  setHas tPropertiesNotMapped (Some "toString") = false
  /\ keysInclude tPropertiesMap (Some "toString") = false
  /\ exists e, updateAssertions inheritedName [] = (Thrown e, []).
Proof. repeat split. eexists. reflexivity. Qed.

(** ** The assertion pass: what it puts at the site of a call *)

(** C9.  [test('works', (t) => t.is(1, 1))] is well formed.  The assertion
    pass puts an expression statement in the body slot of the arrow
    function, where a block or an expression belongs: the tree it returns
    is not well formed. *)
Theorem assertion_in_expression_slot :
  wellFormedProgram assertionAsArrowBody = true
  /\ updateAssertions assertionAsArrowBody [] = (Returned assertionAsArrowBody_out, [])
  /\ wellFormedProgram assertionAsArrowBody_out = false.
Proof. repeat split. Qed.

(** Whatever [newExpression] returns is a statement. *)
Lemma newExpression_is_statement {S : Type} (old : option string) (new : jsvalue)
    (args : list node) (s s' : S) (e : node) :
  newExpression old new args s = (Returned e, s') ->
  isExpression e = false /\ isStatement e = true.
Proof.
  unfold newExpression.
  repeat match goal with
         | |- context [if ?b then _ else _] => destruct b
         end;
    unfold bind, j_expressionStatement, ret, lift;
    repeat match goal with
           | |- context [match ?m ?x with _ => _ end] =>
               destruct (m x) as [[?|?] ?]; try discriminate
           | |- context [if ?b then _ else _] => destruct b; try discriminate
           end;
    intro H; inversion H; split; reflexivity.
Qed.

(** C10.  A plain-rename assertion with a single argument: [args[1]] is
    [undefined], the call builder rejects the array that holds it, and the
    pass throws at that call, before anything is built or replaced. *)
Theorem single_argument_rename_throws :
  forall (name mappedName : string) (a a' : option tstype) (p : node) (c : console),
    ownProperty tPropertiesMap name = Some mappedName ->
    mappedName <> SPECIAL_BOOL ->
    mappedName <> SPECIAL_THROWS_CASE ->
    mappedName <> SPECIAL_PLAN_CASE ->
    nth_error [p] 1 = None
    /\ updateAssertions_node
         (CallExpression
            (MemberExpression false (Identifier "t" a) (Identifier name a')) [p]) c =
       (Thrown (BuilderMismatch "CallExpression" "arguments"), c).
Proof.
  intros name mappedName a a' p c Hown Hb Ht Hp. split; [reflexivity|].
  rewrite updateAssertions_node_call. cbv zeta.
  replace (assertionFilter (MemberExpression false (Identifier "t" a) (Identifier name a')))
    with true.
  - unfold updateAssertions_each. simpl calleePropertyName.
    rewrite (getProperty_own _ _ Hown).
    unfold newExpression.
    rewrite (jsIs_JString_neq Hb), (jsIs_JString_neq Hp), (jsIs_JString_neq Ht).
    unfold bind, j_identifier, j_callExpression, j_memberExpression,
      j_expressionStatement, ret, lift; simpl.
    destruct (isExpression p); reflexivity.
  - apply ownProperty_In in Hown. simpl in Hown.
    repeat (destruct Hown as [Hown|Hown];
            [inversion Hown; subst; reflexivity|]).
    contradiction.
Qed.

Lemma single_argument_rename_throws_witness :
  nth_error [Identifier "value" None] 1 = None
  /\ updateAssertions_node
       (CallExpression
          (MemberExpression false (Identifier "t" None) (Identifier "truthy" None))
          [Identifier "value" None]) [] =
     (Thrown (BuilderMismatch "CallExpression" "arguments"), []).
Proof.
  apply (@single_argument_rename_throws "truthy" "toBeTruthy" None None
           (Identifier "value" None) []);
    try reflexivity; discriminate.
Defined.

(** ** The pipeline, run on its own output *)

(** C7.  With two [test] variables in the file the shared-context pass
    inserts the alias and the variable around both declarations and removes
    the first declarator only.  The first run leaves the second declaration
    in the tree, and a second run converts it: the second output differs
    from the first. *)
Theorem second_run_changes_tree :
  exists out1 out2 c1 c2,
    transformer twoTestVariables [] = (Returned out1, c1)
    /\ transformer out1 [] = (Returned out2, c2)
    /\ flat_map findTestDeclaratorsTop out1 <> []
    /\ out2 <> out1.
Proof.
  do 4 eexists. split; [reflexivity|]. split; [reflexivity|].
  split; discriminate.
Qed.

(** An assertion call that is itself an argument of an assertion call is
    left as it was by the first run and converted by the second. *)
Lemma second_run_converts_nested_assertion :
  exists out1 out2 c1 c2,
    transformer nestedAssertion [] = (Returned out1, c1)
    /\ transformer out1 [] = (Returned out2, c2)
    /\ out2 <> out1.
Proof.
  do 4 eexists. split; [reflexivity|]. split; [reflexivity|]. discriminate.
Qed.

(** ** Subtrees without a [test] declarator *)

Lemma flat_map_nil (A B : Type) (f : A -> list B) (l : list A) :
  flat_map f l = [] <-> Forall (fun x => f x = []) l.
Proof.
  induction l as [|x r IH]; simpl.
  - split; auto.
  - split.
    + intro H. apply app_eq_nil in H. destruct H as [H1 H2].
      constructor; [exact H1|]. apply IH. exact H2.
    + intro H. inversion H as [|? ? H1 H2]; subst.
      rewrite H1. apply IH. exact H2.
Qed.

Lemma findTestDeclarators_eq (n : node) :
  findTestDeclarators n =
  collectKids findTestDeclarators (fun d => if isTestDeclarator d then [d] else []) n.
Proof. destruct n; reflexivity. Qed.

Lemma collectKids_nil (A : Type) (f : node -> list A) (fd : declarator -> list A) (n : node) :
  collectKids f fd n = [] ->
  Forall_kids (fun k => f k = []) (Forall (fun k => f k = [])) n
  /\ match n with
     | VariableDeclaration _ ds => Forall (fun d => fd d = []) ds
     | _ => True
     end.
Proof.
  destruct n; simpl; intro H;
    repeat match goal with
           | H : _ ++ _ = [] |- _ => apply app_eq_nil in H; destruct H
           | H : flat_map _ _ = [] |- _ => apply flat_map_nil in H
           end;
    auto.
  - destruct argument; simpl; auto.
  - split.
    + eapply Forall_impl; [|exact H]. intros [i init] Hd. simpl in Hd.
      apply app_eq_nil in Hd. destruct Hd as [_ Hd].
      apply app_eq_nil in Hd. destruct Hd as [Hi Hinit].
      split; [exact Hi|]. destruct init; simpl; auto.
    + eapply Forall_impl; [|exact H]. intros [i init] Hd. simpl in Hd.
      apply app_eq_nil in Hd. destruct Hd as [Hd _]. exact Hd.
Qed.

Lemma noTest_kids (n : node) :
  findTestDeclarators n = [] ->
  Forall_kids (fun k => findTestDeclarators k = [])
    (Forall (fun k => findTestDeclarators k = [])) n.
Proof.
  rewrite findTestDeclarators_eq. intro H. apply collectKids_nil in H. apply H.
Qed.

Lemma noTest_declarators (kind : string) (ds : list declarator) :
  findTestDeclarators (VariableDeclaration kind ds) = [] ->
  Forall (fun d => isTestDeclarator d = false) ds.
Proof.
  rewrite findTestDeclarators_eq. intro H. apply collectKids_nil in H.
  destruct H as [_ H]. eapply Forall_impl; [|exact H].
  intros d Hd. simpl in Hd. destruct (isTestDeclarator d); [discriminate|reflexivity].
Qed.

Lemma noTest_isTestStatement (n : node) :
  findTestDeclarators n = [] -> isTestStatement n = false.
Proof.
  destruct n; try reflexivity. intro H. apply noTest_declarators in H. simpl.
  induction H as [|d r Hd _ IH]; simpl; [reflexivity|].
  rewrite Hd. exact IH.
Qed.

Lemma concat_singletons (A : Type) (l : list A) : concat (map (fun x => [x]) l) = l.
Proof. induction l; simpl; congruence. Qed.

Lemma insertAround_eq (before after n : node) :
  insertAround before after n =
  mapKidsM
    (fun k =>
       if isTestStatement k then lift (Thrown NotAnArray)
       else insertAround before after k)
    (fun l =>
       ls <- mapM (fun k =>
                     k' <- insertAround before after k ;;
                     ret (if isTestStatement k then [before; k'; after] else [k']))
                  l ;;
       ret (concat ls))
    n.
Proof. destruct n; reflexivity. Qed.

Lemma insertAround_noTest (before after n : node) :
  findTestDeclarators n = [] -> pure_as (insertAround before after n) n.
Proof.
  induction n as [n IH] using node_kids_ind. intro Hn.
  rewrite insertAround_eq. apply mapKidsM_pure_id.
  pose proof (Forall_kids_and _ _ _ _ _ IH (noTest_kids _ Hn)) as H.
  eapply Forall_kids_impl; [| |exact H]; simpl.
  - intros k [H1 H2]. rewrite (noTest_isTestStatement _ H2). auto.
  - intros l [H1 H2].
    apply pure_bind with (a := map (fun k => [k]) l).
    + apply mapM_pure. rewrite Forall_forall in *.
      intros k Hk. rewrite (noTest_isTestStatement _ (H2 k Hk)).
      eapply pure_bind; [apply (H1 k Hk (H2 k Hk))|]. apply pure_ret.
    + intro s. unfold ret. rewrite concat_singletons. reflexivity.
Qed.

Lemma mapDeclaratorM_pure_id {S : Type} (f : node -> Eff S node) (d : declarator) :
  Forall_declarator (fun k => pure_as (f k) k) d -> pure_as (mapDeclaratorM f d) d.
Proof.
  destruct d as [i init]. intros [Hi Hinit]. simpl.
  eapply pure_bind; [exact Hi|].
  apply pure_bind with (a := init).
  - destruct init; simpl in *.
    + eapply pure_bind; [exact Hinit|]. apply pure_ret.
    + apply pure_ret.
  - apply pure_ret.
Qed.

Lemma pruneDeclarators_noTest (visit : node -> Eff bool node) (ds : list declarator) :
  Forall (fun d => isTestDeclarator d = false) ds ->
  Forall (Forall_declarator (fun k => pure_as (visit k) k)) ds ->
  pure_as (pruneDeclarators visit ds) (ds, false).
Proof.
  induction 1 as [|d r Hd _ IH]; intro Hk; simpl.
  - apply pure_ret.
  - inversion Hk as [|? ? Hd' Hr]; subst.
    intro s. unfold bind at 1. unfold get. rewrite Hd, andb_false_r.
    revert s. eapply pure_bind; [apply mapDeclaratorM_pure_id; exact Hd'|].
    eapply pure_bind; [apply IH; exact Hr|]. apply pure_ret.
Qed.

Lemma pruneFirst_eq (n : node) :
  pruneFirst n =
  match n with
  | VariableDeclaration kind ds =>
      r <- pruneDeclarators pruneFirst ds ;;
      ret (VariableDeclaration kind (fst r))
  | _ => mapKidsM pruneFirst (pruneArray pruneFirst) n
  end.
Proof. destruct n; reflexivity. Qed.

Lemma pruneFirst_noTest (n : node) :
  findTestDeclarators n = [] ->
  pure_as (pruneFirst n) n /\ pure_as (pruneElement pruneFirst n) [n].
Proof.
  induction n as [n IH] using node_kids_ind. intro Hn.
  pose proof (Forall_kids_and _ _ _ _ _ IH (noTest_kids _ Hn)) as H.
  assert (Hkids : Forall_kids (fun k => pure_as (pruneFirst k) k)
                    (fun l => pure_as (pruneArray pruneFirst l) l) n).
  { eapply Forall_kids_impl; [| |exact H]; simpl.
    - intros k [H1 H2]. apply H1. exact H2.
    - intros l [H1 H2]. unfold pruneArray.
      apply pure_bind with (a := map (fun k => [k]) l).
      + apply mapM_pure. rewrite Forall_forall in *.
        intros k Hk. apply (H1 k Hk). apply (H2 k Hk).
      + intro s. unfold ret. rewrite concat_singletons. reflexivity. }
  assert (Hfirst : pure_as (pruneFirst n) n).
  { rewrite pruneFirst_eq.
    destruct n; try (apply mapKidsM_pure_id; exact Hkids).
    eapply pure_bind.
    - apply pruneDeclarators_noTest.
      + eapply noTest_declarators. exact Hn.
      + exact Hkids.
    - apply pure_ret. }
  split; [exact Hfirst|].
  destruct n; simpl; try (eapply pure_bind; [exact Hfirst|]; apply pure_ret).
  eapply pure_bind.
  - apply pruneDeclarators_noTest.
    + eapply noTest_declarators. exact Hn.
    + exact Hkids.
  - destruct declarations; apply pure_ret.
Qed.

(** ** updateSharedContextReferences leaves no [t.context] *)

Lemma noContextAccess_eq (n : node) :
  noContextAccess n =
  match n with
  | MemberExpression _ o p =>
      negb (isIdentifierNamed "t" o && isIdentifierNamed "context" p)
  | _ => true
  end && allKids noContextAccess noContextAccess n.
Proof. destruct n; reflexivity. Qed.

Lemma updateSharedContextReferences_node_eq (n : node) :
  updateSharedContextReferences_node n =
  match n with
  | MemberExpression c o p =>
      if isIdentifierNamed "t" o && isIdentifierNamed "context" p
      then Identifier "sharedContext" None
      else mapKids updateSharedContextReferences_node
             (map updateSharedContextReferences_node) n
  | _ => mapKids updateSharedContextReferences_node
           (map updateSharedContextReferences_node) n
  end.
Proof. destruct n; reflexivity. Qed.

Lemma allKids_mapKids (p : node -> bool) (f : node -> node) (n : node) :
  Forall_kids (fun k => p (f k) = true) (Forall (fun k => p (f k) = true)) n ->
  allKids p p (mapKids f (map f) n) = true.
Proof.
  intro H. apply Forall_kids_allKids.
  destruct n; simpl in *; auto;
    repeat match goal with
           | H : _ /\ _ |- _ => destruct H
           | |- _ /\ _ => split
           | |- forallb _ (map _ _) = true =>
               rewrite forallb_forall; intros x Hx; apply in_map_iff in Hx;
               destruct Hx as [y [<- Hy]];
               match goal with
               | H : Forall _ _ |- _ => rewrite Forall_forall in H; apply H; exact Hy
               end
           end; auto.
  - destruct argument; simpl in *; auto.
  - apply Forall_forall. intros d Hd. apply in_map_iff in Hd.
    destruct Hd as [[i init] [<- Hy]]. rewrite Forall_forall in H.
    specialize (H _ Hy). destruct H as [Hi Hinit]. simpl. split; [exact Hi|].
    destruct init; simpl in *; auto.
Qed.

Lemma isIdentifierNamed_updated (s : string) (k : node) :
  s <> "sharedContext" ->
  isIdentifierNamed s (updateSharedContextReferences_node k) = isIdentifierNamed s k.
Proof.
  intro Hs. rewrite updateSharedContextReferences_node_eq.
  destruct k; try reflexivity.
  destruct (isIdentifierNamed "t" k1 && isIdentifierNamed "context" k2); [|reflexivity].
  unfold isIdentifierNamed. apply String.eqb_neq. congruence.
Qed.

Lemma updateSharedContextReferences_node_clean (n : node) :
  noContextAccess (updateSharedContextReferences_node n) = true.
Proof.
  induction n as [n IH] using node_kids_ind.
  rewrite updateSharedContextReferences_node_eq.
  assert (Hk : allKids noContextAccess noContextAccess
                 (mapKids updateSharedContextReferences_node
                    (map updateSharedContextReferences_node) n) = true)
    by (apply allKids_mapKids; exact IH).
  destruct n; try (rewrite noContextAccess_eq, Hk; reflexivity).
  destruct (isIdentifierNamed "t" n1 && isIdentifierNamed "context" n2) eqn:E;
    [reflexivity|].
  rewrite noContextAccess_eq, Hk. simpl mapKids. cbv iota.
  rewrite !isIdentifierNamed_updated by discriminate. rewrite E. reflexivity.
Qed.

(** ** adjustTestDefinitions brings no [t.context] back *)

Lemma adjustTestDefinitions_node_eq (n : node) :
  adjustTestDefinitions_node n =
  match n with
  | CallExpression callee args =>
      let callee' := adjustTestDefinitions_node callee in
      let args' := map adjustTestDefinitions_node args in
      if nameIs "test" callee
      then adjustTestDefinitions_each callee' args'
      else CallExpression callee' args'
  | _ => mapKids adjustTestDefinitions_node (map adjustTestDefinitions_node) n
  end.
Proof. destruct n; reflexivity. Qed.

Lemma adjustTestDefinitions_each_shape (callee : node) (args : list node) :
  adjustTestDefinitions_each callee args = CallExpression callee args
  \/ exists f, nth_error args 1 = Some f
               /\ adjustTestDefinitions_each callee args =
                  CallExpression callee (setNth 1 (clearParams f) args).
Proof.
  unfold adjustTestDefinitions_each.
  destruct (nth_error args 1) as [f|]; [|left; reflexivity].
  destruct (Nat.ltb 1 (length args) && isFunctionValue f).
  - right. exists f. split; reflexivity.
  - left. reflexivity.
Qed.

Lemma isIdentifierNamed_adjusted (s : string) (k : node) :
  isIdentifierNamed s (adjustTestDefinitions_node k) = isIdentifierNamed s k.
Proof.
  rewrite adjustTestDefinitions_node_eq. destruct k; try reflexivity.
  cbv zeta. destruct (nameIs "test" k); [|reflexivity].
  destruct (adjustTestDefinitions_each_shape (adjustTestDefinitions_node k)
              (map adjustTestDefinitions_node arguments)) as [E|[f [_ E]]];
    rewrite E; reflexivity.
Qed.

Lemma forallb_setNth (A : Type) (p : A -> bool) (i : nat) (v : A) (l : list A) :
  forallb p l = true -> p v = true -> forallb p (setNth i v l) = true.
Proof.
  revert i. induction l as [|x r IH]; intros i Hl Hv; [destruct i; reflexivity|].
  simpl in Hl. apply andb_true_iff in Hl. destruct Hl as [Hx Hr].
  destruct i; simpl.
  - rewrite Hv. exact Hr.
  - rewrite Hx. apply IH; assumption.
Qed.

Lemma forallb_nth_error (A : Type) (p : A -> bool) (i : nat) (v : A) (l : list A) :
  forallb p l = true -> nth_error l i = Some v -> p v = true.
Proof.
  intros Hl Hv. rewrite forallb_forall in Hl. apply Hl.
  eapply nth_error_In. exact Hv.
Qed.

Lemma noContextAccess_clearParams (f : node) :
  noContextAccess f = true -> noContextAccess (clearParams f) = true.
Proof.
  destruct f; simpl; auto.
  - destruct params; simpl; auto.
    intro H. apply andb_true_iff in H. destruct H as [_ H]. exact H.
  - destruct params; simpl; auto.
    intro H. apply andb_true_iff in H. destruct H as [_ H]. exact H.
Qed.

Lemma noContextAccess_kids (n : node) :
  noContextAccess n = true ->
  Forall_kids (fun k => noContextAccess k = true)
    (Forall (fun k => noContextAccess k = true)) n.
Proof.
  rewrite noContextAccess_eq. intro H. apply andb_true_iff in H. destruct H as [_ H].
  apply allKids_Forall_kids in H.
  eapply Forall_kids_impl; [| |exact H]; simpl; auto.
  intros l Hl. apply forallb_Forall. exact Hl.
Qed.

Lemma adjustTestDefinitions_node_clean (n : node) :
  noContextAccess n = true -> noContextAccess (adjustTestDefinitions_node n) = true.
Proof.
  induction n as [n IH] using node_kids_ind. intro Hn.
  pose proof (Forall_kids_and _ _ _ _ _ IH (noContextAccess_kids _ Hn)) as H.
  assert (Hk : Forall_kids
                 (fun k => noContextAccess (adjustTestDefinitions_node k) = true)
                 (Forall (fun k => noContextAccess (adjustTestDefinitions_node k) = true))
                 n).
  { eapply Forall_kids_impl; [| |exact H]; simpl.
    - intros k [H1 H2]. auto.
    - intros l [H1 H2]. rewrite Forall_forall in *. auto. }
  pose proof (allKids_mapKids noContextAccess adjustTestDefinitions_node n Hk) as Hall.
  rewrite adjustTestDefinitions_node_eq.
  destruct n; try (rewrite noContextAccess_eq, Hall; reflexivity).
  - (* MemberExpression *)
    rewrite noContextAccess_eq, Hall. simpl mapKids. cbv iota.
    rewrite !isIdentifierNamed_adjusted.
    rewrite noContextAccess_eq in Hn. apply andb_true_iff in Hn. destruct Hn as [Hn _].
    rewrite Hn. reflexivity.
  - (* CallExpression *)
    cbv zeta. simpl in Hall. apply andb_true_iff in Hall. destruct Hall as [Hc Hargs].
    assert (Hplain : noContextAccess
                       (CallExpression (adjustTestDefinitions_node n)
                          (map adjustTestDefinitions_node arguments)) = true).
    { rewrite noContextAccess_eq. simpl. rewrite Hc, Hargs. reflexivity. }
    destruct (nameIs "test" n); [|exact Hplain].
    destruct (adjustTestDefinitions_each_shape (adjustTestDefinitions_node n)
                (map adjustTestDefinitions_node arguments)) as [E|[f [Hf E]]];
      rewrite E; [exact Hplain|].
    rewrite noContextAccess_eq. unfold allKids. rewrite Hc, !andb_true_l.
    apply forallb_setNth; [exact Hargs|].
    apply noContextAccess_clearParams.
    eapply forallb_nth_error; [exact Hargs|exact Hf].
Qed.

(** ** The shared-context passes on a file with one [test] variable *)

Lemma mapM_app {S A B : Type} (f : A -> Eff S B) (l1 l2 : list A) (s : S) :
  mapM f (l1 ++ l2) s =
  (r1 <- mapM f l1 ;; r2 <- mapM f l2 ;; ret (r1 ++ r2)) s.
Proof.
  revert s. induction l1 as [|x r IH]; intro s; simpl.
  - unfold bind, ret. destruct (mapM f l2 s) as [[r2|e] s']; reflexivity.
  - unfold bind. destruct (f x s) as [[y|e] s1]; [|reflexivity].
    rewrite IH. unfold bind, ret.
    destruct (mapM f r s1) as [[r1|e] s2]; [|reflexivity].
    destruct (mapM f l2 s2) as [[r2|e] s3]; reflexivity.
Qed.

Lemma runs_pure {S A : Type} (m : Eff S A) (a : A) (s : S) :
  pure_as m a -> runs m s a s.
Proof. intro H. apply H. Qed.

Lemma runs_bind {S A B : Type} (m : Eff S A) (k : A -> Eff S B)
    (s s1 s2 : S) (a : A) (b : B) :
  runs m s a s1 -> runs (k a) s1 b s2 -> runs (bind m k) s b s2.
Proof. unfold runs, bind. intros -> H. exact H. Qed.

Lemma mapM_cons_runs {S A B : Type} (f : A -> Eff S B) (x : A) (r : list A)
    (y : B) (ys : list B) (s s1 s2 : S) :
  runs (f x) s y s1 -> runs (mapM f r) s1 ys s2 -> runs (mapM f (x :: r)) s (y :: ys) s2.
Proof.
  intros Hx Hr. simpl. eapply runs_bind; [exact Hx|].
  eapply runs_bind; [exact Hr|]. reflexivity.
Qed.

Lemma mapM_app_runs {S A B : Type} (f : A -> Eff S B) (l1 l2 : list A)
    (r1 r2 : list B) (s s1 s2 : S) :
  runs (mapM f l1) s r1 s1 -> runs (mapM f l2) s1 r2 s2 ->
  runs (mapM f (l1 ++ l2)) s (r1 ++ r2) s2.
Proof.
  intros H1 H2. unfold runs. rewrite mapM_app.
  eapply runs_bind; [exact H1|]. eapply runs_bind; [exact H2|]. reflexivity.
Qed.

Lemma mapM_cons_pure {S A B : Type} (f : A -> Eff S B) (x : A) (r : list A)
    (y : B) (ys : list B) :
  pure_as (f x) y -> pure_as (mapM f r) ys -> pure_as (mapM f (x :: r)) (y :: ys).
Proof. intros Hx Hr s. apply mapM_cons_runs with (s1 := s); [apply Hx|apply Hr]. Qed.

Lemma mapM_app_pure {S A B : Type} (f : A -> Eff S B) (l1 l2 : list A)
    (r1 r2 : list B) :
  pure_as (mapM f l1) r1 -> pure_as (mapM f l2) r2 ->
  pure_as (mapM f (l1 ++ l2)) (r1 ++ r2).
Proof. intros H1 H2 s. apply mapM_app_runs with (s1 := s); [apply H1|apply H2]. Qed.

Lemma noTestTop_Forall (l : program) :
  flat_map findTestDeclaratorsTop l = [] ->
  Forall (fun t => findTestDeclaratorsTop t = []) l.
Proof. apply flat_map_nil. Qed.

Lemma insertAroundTop_step_noTest (before after : node) (l : program) :
  flat_map findTestDeclaratorsTop l = [] ->
  pure_as
    (mapM (fun t =>
             match t with
             | Statement s =>
                 s' <- insertAround before after s ;;
                 ret (if isTestStatement s
                      then [Statement before; Statement s'; Statement after]
                      else [Statement s'])
             | ImportDeclaration _ _ => ret [t]
             end) l)
    (map (fun t => [t]) l).
Proof.
  intro H. apply noTestTop_Forall in H. apply mapM_pure.
  eapply Forall_impl; [|exact H].
  intros [sp src|s] Ht; simpl in *.
  - apply pure_ret.
  - rewrite (noTest_isTestStatement _ Ht).
    eapply pure_bind; [apply insertAround_noTest; exact Ht|]. apply pure_ret.
Qed.

Lemma pruneFirstTop_step_noTest (l : program) :
  flat_map findTestDeclaratorsTop l = [] ->
  pure_as
    (mapM (fun t =>
             match t with
             | Statement s =>
                 r <- pruneElement pruneFirst s ;; ret (map Statement r)
             | ImportDeclaration _ _ => ret [t]
             end) l)
    (map (fun t => [t]) l).
Proof.
  intro H. apply noTestTop_Forall in H. apply mapM_pure.
  eapply Forall_impl; [|exact H].
  intros [sp src|s] Ht; simpl in *.
  - apply pure_ret.
  - eapply pure_bind; [apply pruneFirst_noTest; exact Ht|]. apply pure_ret.
Qed.

Section OneTestVariable.
Variables (pre post : program) (kind name : string) (annotation : option tstype)
  (e : node) (context : tstype).
Hypothesis Hpre : flat_map findTestDeclaratorsTop pre = [].
Hypothesis Hpost : flat_map findTestDeclaratorsTop post = [].
Hypothesis He : findTestDeclarators e = [].

#[local] Abbreviation testDeclarator := (typedTestDeclarator name annotation e context).
#[local] Abbreviation declaration := (typedTestDeclaration kind name annotation e context).

Lemma found_one_test_variable :
  flat_map findTestDeclaratorsTop (pre ++ Statement declaration :: post) =
  [testDeclarator].
Proof.
  rewrite flat_map_app, Hpre. simpl. rewrite Hpost, He. reflexivity.
Qed.

Lemma insertAround_declaration (before after : node) :
  pure_as (insertAround before after declaration) declaration.
Proof.
  rewrite insertAround_eq. apply mapKidsM_pure_id. simpl.
  constructor; [|constructor]. split.
  - apply (insertAround_noTest before after (Identifier "test" annotation)).
    reflexivity.
  - change (pure_as
              (insertAround before after
                 (TSAsExpression e (TSTypeReference name (Some [context]))))
              (TSAsExpression e (TSTypeReference name (Some [context])))).
    apply insertAround_noTest. exact He.
Qed.

Lemma insertAroundTop_one (before after : node) :
  pure_as (insertAroundTop before after (pre ++ Statement declaration :: post))
    (pre ++ Statement before :: Statement declaration :: Statement after :: post).
Proof.
  unfold insertAroundTop.
  apply pure_bind
    with (a := map (fun t => [t]) pre
               ++ [Statement before; Statement declaration; Statement after]
               :: map (fun t => [t]) post).
  - apply mapM_app_pure; [apply insertAroundTop_step_noTest; exact Hpre|].
    apply mapM_cons_pure; [|apply insertAroundTop_step_noTest; exact Hpost].
    eapply pure_bind; [apply insertAround_declaration|]. apply pure_ret.
  - intro s. unfold ret. rewrite concat_app. simpl. rewrite !concat_singletons.
    reflexivity.
Qed.

Lemma pruneElement_declaration :
  runs (pruneElement pruneFirst declaration) false [] true.
Proof. reflexivity. Qed.

Lemma removeFirstTestDeclarator_one (before after : node) :
  findTestDeclarators before = [] -> findTestDeclarators after = [] ->
  removeFirstTestDeclarator
    (pre ++ Statement before :: Statement declaration :: Statement after :: post) =
  pre ++ Statement before :: Statement after :: post.
Proof.
  intros Hb Ha. unfold removeFirstTestDeclarator.
  assert (H : runs
                (pruneFirstTop
                   (pre ++ Statement before :: Statement declaration
                        :: Statement after :: post))
                false (pre ++ Statement before :: Statement after :: post) true).
  { unfold pruneFirstTop.
    apply runs_bind
      with (a := map (fun t => [t]) pre
                 ++ [Statement before] :: [] :: [Statement after]
                 :: map (fun t => [t]) post)
           (s1 := true).
    - apply mapM_app_runs with (s1 := false).
      { apply runs_pure. apply pruneFirstTop_step_noTest. exact Hpre. }
      apply mapM_cons_runs with (s1 := false).
      { apply runs_pure. eapply pure_bind; [apply pruneFirst_noTest; exact Hb|].
        apply pure_ret. }
      apply mapM_cons_runs with (s1 := true).
      { eapply runs_bind; [apply pruneElement_declaration|]. reflexivity. }
      apply mapM_cons_runs with (s1 := true).
      { apply runs_pure. eapply pure_bind; [apply pruneFirst_noTest; exact Ha|].
        apply pure_ret. }
      apply runs_pure. apply pruneFirstTop_step_noTest. exact Hpost.
    - unfold runs, ret. rewrite concat_app. simpl. rewrite !concat_singletons.
      reflexivity. }
  unfold runs in H. rewrite H. reflexivity.
Qed.
End OneTestVariable.

(** ** Passes 3 and 4 declare no [test] *)

Lemma collectKids_mapKids_nil (A : Type) (find : node -> list A)
    (fd : declarator -> list A) (f : node -> node) (n : node) :
  Forall_kids (fun k => find (f k) = []) (Forall (fun k => find (f k) = [])) n ->
  match n with
  | VariableDeclaration _ ds => Forall (fun d => fd (mapDeclarator f d) = []) ds
  | _ => True
  end ->
  collectKids find fd (mapKids f (map f) n) = [].
Proof.
  assert (Hmany : forall l, Forall (fun k => find (f k) = []) l ->
                            flat_map find (map f l) = []).
  { intros l Hl. apply flat_map_nil. apply Forall_forall. intros x Hx.
    apply in_map_iff in Hx. destruct Hx as [y [<- Hy]].
    rewrite Forall_forall in Hl. apply Hl. exact Hy. }
  destruct n; simpl; intros H Hd;
    repeat match goal with
           | H : _ /\ _ |- _ => destruct H
           end;
    repeat match goal with
           | H : find (f _) = [] |- _ => rewrite H
           | H : Forall _ _ |- _ => rewrite (Hmany _ H)
           end;
    auto.
  - destruct argument; simpl in *; auto.
  - apply flat_map_nil. apply Forall_forall. intros d Hin.
    apply in_map_iff in Hin. destruct Hin as [[i init] [<- Hy]].
    rewrite Forall_forall in H, Hd.
    rewrite (Hd _ Hy). destruct (H _ Hy) as [Hi Hinit]. simpl.
    rewrite Hi. destruct init; simpl in *; auto.
Qed.

Lemma nameIs_updated (s : string) (k : node) :
  s <> "sharedContext" ->
  nameIs s (updateSharedContextReferences_node k) = nameIs s k.
Proof.
  intro Hs. rewrite updateSharedContextReferences_node_eq.
  destruct k; try reflexivity.
  destruct (isIdentifierNamed "t" k1 && isIdentifierNamed "context" k2); [|reflexivity].
  unfold nameIs, nodeName. apply String.eqb_neq. congruence.
Qed.

Lemma nameIs_adjusted (s : string) (k : node) :
  nameIs s (adjustTestDefinitions_node k) = nameIs s k.
Proof.
  rewrite adjustTestDefinitions_node_eq. destruct k; try reflexivity.
  cbv zeta. destruct (nameIs "test" k); [|reflexivity].
  destruct (adjustTestDefinitions_each_shape (adjustTestDefinitions_node k)
              (map adjustTestDefinitions_node arguments)) as [E|[f [_ E]]];
    rewrite E; reflexivity.
Qed.

Lemma noTest_mapped_declarators (f : node -> node) (kind : string)
    (ds : list declarator) :
  (forall k, nameIs "test" (f k) = nameIs "test" k) ->
  findTestDeclarators (VariableDeclaration kind ds) = [] ->
  Forall (fun d => (if isTestDeclarator (mapDeclarator f d) then [mapDeclarator f d] else [])
                   = []) ds.
Proof.
  intros Hf H. apply noTest_declarators in H. eapply Forall_impl; [|exact H].
  intros [i init] Hd. simpl in *. rewrite Hf, Hd. reflexivity.
Qed.

Lemma updateSharedContextReferences_node_noTest (n : node) :
  findTestDeclarators n = [] ->
  findTestDeclarators (updateSharedContextReferences_node n) = [].
Proof.
  induction n as [n IH] using node_kids_ind. intro Hn.
  pose proof (Forall_kids_and _ _ _ _ _ IH (noTest_kids _ Hn)) as H.
  assert (Hk : findTestDeclarators
                 (mapKids updateSharedContextReferences_node
                    (map updateSharedContextReferences_node) n) = []).
  { rewrite findTestDeclarators_eq. apply collectKids_mapKids_nil.
    - eapply Forall_kids_impl; [| |exact H]; simpl.
      + intros k [H1 H2]. auto.
      + intros l [H1 H2]. rewrite Forall_forall in *. auto.
    - destruct n; auto. eapply noTest_mapped_declarators; [|exact Hn].
      intro k. apply nameIs_updated. discriminate. }
  rewrite updateSharedContextReferences_node_eq.
  destruct n; try exact Hk.
  destruct (isIdentifierNamed "t" n1 && isIdentifierNamed "context" n2);
    [reflexivity|exact Hk].
Qed.

Lemma findTestDeclarators_clearParams (f : node) :
  findTestDeclarators f = [] -> findTestDeclarators (clearParams f) = [].
Proof.
  destruct f; simpl; auto.
  - destruct params; simpl; auto.
    intro H. apply app_eq_nil in H. apply H.
  - destruct params; simpl; auto.
    intro H. apply app_eq_nil in H. apply H.
Qed.

Lemma flat_map_setNth_nil (A B : Type) (g : A -> list B) (i : nat) (v : A) (l : list A) :
  flat_map g l = [] -> g v = [] -> flat_map g (setNth i v l) = [].
Proof.
  revert i. induction l as [|x r IH]; intros i Hl Hv; [destruct i; reflexivity|].
  simpl in Hl. apply app_eq_nil in Hl. destruct Hl as [Hx Hr].
  destruct i; simpl.
  - rewrite Hv. exact Hr.
  - rewrite Hx. apply IH; assumption.
Qed.

Lemma adjustTestDefinitions_node_noTest (n : node) :
  findTestDeclarators n = [] ->
  findTestDeclarators (adjustTestDefinitions_node n) = [].
Proof.
  induction n as [n IH] using node_kids_ind. intro Hn.
  pose proof (Forall_kids_and _ _ _ _ _ IH (noTest_kids _ Hn)) as H.
  assert (Hk : findTestDeclarators
                 (mapKids adjustTestDefinitions_node
                    (map adjustTestDefinitions_node) n) = []).
  { rewrite findTestDeclarators_eq. apply collectKids_mapKids_nil.
    - eapply Forall_kids_impl; [| |exact H]; simpl.
      + intros k [H1 H2]. auto.
      + intros l [H1 H2]. rewrite Forall_forall in *. auto.
    - destruct n; auto. eapply noTest_mapped_declarators; [|exact Hn].
      intro k. apply nameIs_adjusted. }
  rewrite adjustTestDefinitions_node_eq.
  destruct n; try exact Hk.
  cbv zeta. destruct (nameIs "test" n); [|exact Hk].
  destruct (adjustTestDefinitions_each_shape (adjustTestDefinitions_node n)
              (map adjustTestDefinitions_node arguments)) as [E|[f [Hf E]]];
    rewrite E; [exact Hk|].
  rewrite findTestDeclarators_eq in Hk. simpl in Hk.
  apply app_eq_nil in Hk. destruct Hk as [Hc Hargs].
  rewrite findTestDeclarators_eq. unfold collectKids. rewrite Hc, app_nil_l.
  apply flat_map_setNth_nil; [exact Hargs|].
  apply findTestDeclarators_clearParams.
  rewrite flat_map_nil, Forall_forall in Hargs. apply Hargs.
  eapply nth_error_In. exact Hf.
Qed.

Lemma rewriteReferences_noTest (l : program) :
  flat_map findTestDeclaratorsTop l = [] ->
  flat_map findTestDeclaratorsTop (onStatements rewriteReferences l) = [].
Proof.
  intro H. apply flat_map_nil. apply noTestTop_Forall in H.
  apply Forall_forall. intros t Ht. unfold onStatements in Ht.
  apply in_map_iff in Ht. destruct Ht as [[sp src|s] [<- Hin]]; simpl; [reflexivity|].
  rewrite Forall_forall in H. specialize (H _ Hin). simpl in H.
  apply adjustTestDefinitions_node_noTest.
  apply updateSharedContextReferences_node_noTest. exact H.
Qed.

Lemma onStatements_app (f : node -> node) (l1 l2 : program) :
  onStatements f (l1 ++ l2) = onStatements f l1 ++ onStatements f l2.
Proof. apply map_app. Qed.

Lemma onStatements_compose (f g : node -> node) (l : program) :
  onStatements f (onStatements g l) = onStatements (fun s => f (g s)) l.
Proof.
  unfold onStatements. rewrite map_map. apply map_ext.
  intros [sp src|s]; reflexivity.
Qed.

Lemma rewriteReferences_clean (l : program) :
  forallb noContextAccessTop (onStatements rewriteReferences l) = true.
Proof.
  apply forallb_forall. intros t Ht. unfold onStatements in Ht.
  apply in_map_iff in Ht. destruct Ht as [[sp src|s] [<- _]]; simpl; [reflexivity|].
  apply adjustTestDefinitions_node_clean.
  apply updateSharedContextReferences_node_clean.
Qed.

(** C4.  A file whose only [test] variable is declared as
    [<e> as <Name><{ a: number, b: string }>], among statements [pre] and
    [post] that declare no [test] of their own.  Passes 2, 3 and 4 return,
    without a diagnostic, the tree in which the declaration of [test] has
    made place for the type alias [SharedContextType = { a: number, b:
    string }] followed by [const sharedContext: SharedContextType =
    { a: null, b: null }]; the other statements are what passes 3 and 4 make
    of them.  No declarator of [test] and no member access [t.context] is
    left anywhere in that tree: where [t.context] stood, passes 3 and 4
    leave the identifier [sharedContext]. *)
Theorem shared_context_extraction :
  forall (pre post : program) (kind name : string) (annotation : option tstype)
         (e : node) (c : console),
    flat_map findTestDeclaratorsTop pre = [] ->
    flat_map findTestDeclaratorsTop post = [] ->
    findTestDeclarators e = [] ->
    let declaration :=
      VariableDeclaration kind
        [VariableDeclarator (Identifier "test" annotation)
           (Some (TSAsExpression e (TSTypeReference name (Some [contextAB]))))] in
    let out :=
      onStatements rewriteReferences pre
      ++ Statement sharedContextAliasAB
      :: Statement sharedContextVariableAB
      :: onStatements rewriteReferences post in
    sharedContextPasses (pre ++ Statement declaration :: post) c = (Returned out, c)
    /\ flat_map findTestDeclaratorsTop out = []
    /\ forallb noContextAccessTop out = true
    /\ (forall computed a a',
           rewriteReferences
             (MemberExpression computed (Identifier "t" a) (Identifier "context" a')) =
           Identifier "sharedContext" None).
Proof.
  intros pre post kind name annotation e c Hpre Hpost He declaration out.
  split; [|split; [|split; [|reflexivity]]].
  - unfold sharedContextPasses, generateSharedContext.
    unfold declaration.
    fold (typedTestDeclarator name annotation e contextAB).
    fold (typedTestDeclaration kind name annotation e contextAB).
    rewrite found_one_test_variable by assumption.
    unfold typedTestDeclarator at 1.
    unfold contextAB at 1. cbv iota beta.
    change (sharedContextProperties
              [TSPropertySignature (KIdentifier "a") (Some (TSKeyword "number"));
               TSPropertySignature (KIdentifier "b") (Some (TSKeyword "string"))])
      with [ObjectProperty (Identifier "a" None) NullLiteral;
            ObjectProperty (Identifier "b" None) NullLiteral].
    fold contextAB. fold sharedContextAliasAB. fold sharedContextVariableAB.
    unfold bind at 1. unfold bind at 1.
    rewrite insertAroundTop_one by assumption.
    unfold ret at 1.
    rewrite removeFirstTestDeclarator_one by (assumption || reflexivity).
    unfold ret, adjustTestDefinitions, updateSharedContextReferences.
    rewrite onStatements_compose. fold rewriteReferences.
    rewrite onStatements_app. reflexivity.
  - unfold out. rewrite flat_map_app. rewrite (rewriteReferences_noTest _ Hpre).
    simpl. apply rewriteReferences_noTest. exact Hpost.
  - unfold out. rewrite forallb_app. rewrite rewriteReferences_clean. simpl.
    apply rewriteReferences_clean.
Qed.

Lemma shared_context_extraction_witness :
  sharedContextPasses
    ([ ImportDeclaration ["anyTest"; "TestFn"] (LString "ava") ]
     ++ Statement
          (VariableDeclaration "const"
             [VariableDeclarator (Identifier "test" None)
                (Some (TSAsExpression (Identifier "anyTest" None)
                         (TSTypeReference "TestFn" (Some [contextAB]))))])
     :: [ Statement
            (ExpressionStatement
               (CallExpression (Identifier "test" None)
                  [ Literal (LString "reads the context");
                    ArrowFunctionExpression [Identifier "t" None]
                      (CallExpression (Identifier "use" None)
                         [MemberExpression false
                            (MemberExpression false (Identifier "t" None)
                               (Identifier "context" None))
                            (Identifier "a" None)]) ])) ]) [] =
  (Returned
     [ ImportDeclaration ["anyTest"; "TestFn"] (LString "ava");
       Statement sharedContextAliasAB;
       Statement sharedContextVariableAB;
       Statement
         (ExpressionStatement
            (CallExpression (Identifier "test" None)
               [ Literal (LString "reads the context");
                 ArrowFunctionExpression []
                   (CallExpression (Identifier "use" None)
                      [MemberExpression false (Identifier "sharedContext" None)
                         (Identifier "a" None)]) ])) ],
   []).
Proof.
  apply (proj1 (@shared_context_extraction
                  [ ImportDeclaration ["anyTest"; "TestFn"] (LString "ava") ]
                  [ Statement
                      (ExpressionStatement
                         (CallExpression (Identifier "test" None)
                            [ Literal (LString "reads the context");
                              ArrowFunctionExpression [Identifier "t" None]
                                (CallExpression (Identifier "use" None)
                                   [MemberExpression false
                                      (MemberExpression false (Identifier "t" None)
                                         (Identifier "context" None))
                                      (Identifier "a" None)]) ])) ]
                  "const" "TestFn" None (Identifier "anyTest" None) []
                  eq_refl eq_refl eq_refl)).
Defined.

(** ** The assertion pass on a file: the node left at the site *)







(** * Beside the claims *)

(** ** getIdentifierFromExpression *)

Lemma getIdentifierFromExpression_memberChain (root : node) (properties : list (bool * node)) :
  getIdentifierFromExpression_node (memberChain root properties) =
  getIdentifierFromExpression_node root.
Proof.
  unfold memberChain. revert root.
  induction properties as [|cp r IH]; intro root; simpl; [reflexivity|].
  rewrite IH. reflexivity.
Qed.

(** X1.  [getIdentifierFromExpression] looks through member accesses: on
    [root.p1.p2...] it answers what it answers on [root], whatever the
    properties are and whether they are computed or not; so on a chain that
    starts at an identifier it returns that identifier. *)
Theorem getIdentifierFromExpression_chain :
  forall (root : node) (properties : list (bool * node)),
    getIdentifierFromExpression (Some (memberChain root properties)) =
    getIdentifierFromExpression (Some root)
    /\ forall name annotation,
         getIdentifierFromExpression
           (Some (memberChain (Identifier name annotation) properties)) =
         Some (Identifier name annotation).
Proof.
  intros root properties. split.
  - apply getIdentifierFromExpression_memberChain.
  - intros name annotation. simpl.
    rewrite getIdentifierFromExpression_memberChain. reflexivity.
Qed.

(** X2.  [getIdentifierFromExpression] returns [null] or an identifier, never
    a node of another kind.  It returns [null] on [undefined], and on a call
    expression such as [foo.bar.baz()]: the identifier [foo] is found from
    the callee of that call, not from the call. *)
Theorem getIdentifierFromExpression_result :
  (forall n : option node,
      match getIdentifierFromExpression n with
      | Some r => exists name annotation, r = Identifier name annotation
      | None => True
      end)
  /\ getIdentifierFromExpression None = None
  /\ (forall name annotation properties args,
         let callee := memberChain (Identifier name annotation) properties in
         getIdentifierFromExpression (Some (CallExpression callee args)) = None
         /\ getIdentifierFromExpression (Some callee) = Some (Identifier name annotation)).
Proof.
  repeat split.
  - intros [n|]; simpl; [|exact I].
    induction n; simpl; auto. eexists. eexists. reflexivity.
  - simpl. rewrite getIdentifierFromExpression_memberChain. reflexivity.
Qed.

(** ** updateSharedContextReferences *)

Lemma updateSharedContextReferences_node_id (n : node) :
  noContextAccess n = true -> updateSharedContextReferences_node n = n.
Proof.
  induction n as [n IH] using node_kids_ind. intro Hn.
  pose proof (Forall_kids_and _ _ _ _ _ IH (noContextAccess_kids _ Hn)) as H.
  assert (Hk : mapKids updateSharedContextReferences_node
                 (map updateSharedContextReferences_node) n = n).
  { apply mapKids_id. eapply Forall_kids_impl; [| |exact H]; simpl.
    - intros k [H1 H2]. auto.
    - intros l [H1 H2]. rewrite <- (map_id l) at 2. apply map_ext_in.
      rewrite Forall_forall in *. auto. }
  rewrite updateSharedContextReferences_node_eq.
  destruct n; try exact Hk.
  rewrite noContextAccess_eq in Hn. apply andb_true_iff in Hn. destruct Hn as [Hn _].
  apply negb_true_iff in Hn. rewrite Hn. exact Hk.
Qed.

(** X3.  After [updateSharedContextReferences] no member access [t.context]
    is left, on any tree; on a tree that has none the pass changes nothing,
    and so the pass is idempotent. *)
Theorem updateSharedContextReferences_settles :
  forall n : node,
    noContextAccess (updateSharedContextReferences_node n) = true
    /\ updateSharedContextReferences_node (updateSharedContextReferences_node n) =
       updateSharedContextReferences_node n
    /\ (noContextAccess n = true -> updateSharedContextReferences_node n = n).
Proof.
  intro n. split; [apply updateSharedContextReferences_node_clean|]. split.
  - apply updateSharedContextReferences_node_id.
    apply updateSharedContextReferences_node_clean.
  - apply updateSharedContextReferences_node_id.
Qed.

Lemma updateSharedContextReferences_settles_witness :
  updateSharedContextReferences_node
    (CallExpression (Identifier "use" None)
       [MemberExpression false (Identifier "sharedContext" None) (Identifier "a" None)]) =
  CallExpression (Identifier "use" None)
    [MemberExpression false (Identifier "sharedContext" None) (Identifier "a" None)].
Proof.
  apply (proj2 (proj2 (updateSharedContextReferences_settles
           (CallExpression (Identifier "use" None)
              [MemberExpression false (Identifier "sharedContext" None)
                 (Identifier "a" None)])))).
  reflexivity.
Defined.

(** ** adjustTestDefinitions *)

Lemma adjusted_eq (n : node) :
  adjusted n =
  match n with
  | CallExpression callee args =>
      negb (nameIs "test" callee
            && match nth_error args 1 with
               | Some f => hasParams f
               | None => false
               end)
  | _ => true
  end && allKids adjusted adjusted n.
Proof. destruct n; reflexivity. Qed.

Lemma adjusted_kids (n : node) :
  adjusted n = true ->
  Forall_kids (fun k => adjusted k = true) (Forall (fun k => adjusted k = true)) n.
Proof.
  rewrite adjusted_eq. intro H. apply andb_true_iff in H. destruct H as [_ H].
  apply allKids_Forall_kids in H.
  eapply Forall_kids_impl; [| |exact H]; simpl; auto.
  intros l Hl. apply forallb_Forall. exact Hl.
Qed.

Lemma setNth_same (A : Type) (i : nat) (v : A) (l : list A) :
  nth_error l i = Some v -> setNth i v l = l.
Proof.
  revert i. induction l as [|x r IH]; intros [|i] H; simpl in *; try discriminate.
  - inversion H. reflexivity.
  - rewrite IH by exact H. reflexivity.
Qed.

Lemma nth_error_setNth (A : Type) (i : nat) (v w : A) (l : list A) :
  nth_error l i = Some w -> nth_error (setNth i v l) i = Some v.
Proof.
  revert i. induction l as [|x r IH]; intros [|i] H; simpl in *; try discriminate.
  - reflexivity.
  - eapply IH. exact H.
Qed.

Lemma clearParams_noParams (f : node) : hasParams f = false -> clearParams f = f.
Proof. destruct f; try reflexivity; destruct params; simpl; congruence. Qed.

Lemma hasParams_clearParams (f : node) : hasParams (clearParams f) = false.
Proof. destruct f; try reflexivity; destruct params; reflexivity. Qed.

Lemma hasParams_function (f : node) : hasParams f = true -> isFunctionValue f = true.
Proof. destruct f; simpl; congruence. Qed.

Lemma adjusted_clearParams (f : node) :
  adjusted f = true -> adjusted (clearParams f) = true.
Proof.
  destruct f; simpl; auto.
  - destruct params; simpl; auto.
    intro H. apply andb_true_iff in H. apply H.
  - destruct params; simpl; auto.
    intro H. apply andb_true_iff in H. apply H.
Qed.

Lemma adjustTestDefinitions_each_noParams (callee : node) (args : list node) :
  match nth_error args 1 with
  | Some f => hasParams f
  | None => false
  end = false ->
  adjustTestDefinitions_each callee args = CallExpression callee args.
Proof.
  unfold adjustTestDefinitions_each.
  destruct (nth_error args 1) as [f|] eqn:E; [|reflexivity].
  intro H. rewrite (clearParams_noParams _ H), (setNth_same _ _ E).
  destruct (Nat.ltb 1 (length args) && isFunctionValue f); reflexivity.
Qed.

Lemma adjustTestDefinitions_node_id (n : node) :
  adjusted n = true -> adjustTestDefinitions_node n = n.
Proof.
  induction n as [n IH] using node_kids_ind. intro Hn.
  pose proof (Forall_kids_and _ _ _ _ _ IH (adjusted_kids _ Hn)) as H.
  assert (Hk : mapKids adjustTestDefinitions_node (map adjustTestDefinitions_node) n = n).
  { apply mapKids_id. eapply Forall_kids_impl; [| |exact H]; simpl.
    - intros k [H1 H2]. auto.
    - intros l [H1 H2]. rewrite <- (map_id l) at 2. apply map_ext_in.
      rewrite Forall_forall in *. auto. }
  rewrite adjustTestDefinitions_node_eq.
  destruct n; try exact Hk.
  cbv zeta. simpl in Hk. inversion Hk as [[Hc Ha]]. rewrite !Hc, !Ha.
  destruct (nameIs "test" n) eqn:Et; [|reflexivity].
  apply adjustTestDefinitions_each_noParams.
  rewrite adjusted_eq in Hn. apply andb_true_iff in Hn. destruct Hn as [Hn _].
  apply negb_true_iff in Hn. rewrite Et in Hn. exact Hn.
Qed.

Lemma adjustTestDefinitions_node_adjusted (n : node) :
  adjusted (adjustTestDefinitions_node n) = true.
Proof.
  induction n as [n IH] using node_kids_ind.
  pose proof (allKids_mapKids adjusted adjustTestDefinitions_node n IH) as Hall.
  rewrite adjustTestDefinitions_node_eq.
  destruct n; try (rewrite adjusted_eq, Hall; reflexivity).
  cbv zeta. simpl in Hall. apply andb_true_iff in Hall. destruct Hall as [Hc Hargs].
  set (callee' := adjustTestDefinitions_node n) in *.
  set (args' := map adjustTestDefinitions_node arguments) in *.
  destruct (nameIs "test" n) eqn:Et.
  - unfold adjustTestDefinitions_each.
    destruct (nth_error args' 1) as [f|] eqn:E.
    + destruct (Nat.ltb 1 (length args') && isFunctionValue f) eqn:Eg.
      * rewrite adjusted_eq. unfold allKids.
        erewrite nth_error_setNth by exact E. rewrite hasParams_clearParams, andb_false_r.
        rewrite Hc, !andb_true_l. apply forallb_setNth; [exact Hargs|].
        apply adjusted_clearParams. eapply forallb_nth_error; [exact Hargs|exact E].
      * rewrite adjusted_eq. unfold allKids. rewrite E, Hc, Hargs.
        destruct (hasParams f) eqn:Eh; [|rewrite andb_false_r; reflexivity].
        apply hasParams_function in Eh. rewrite Eh, andb_true_r in Eg.
        apply Nat.ltb_ge in Eg.
        assert (Hlt : 1 < length args')
          by (apply nth_error_Some; rewrite E; discriminate).
        lia.
    + rewrite adjusted_eq. unfold allKids. rewrite E, Hc, Hargs, andb_false_r.
      reflexivity.
  - rewrite adjusted_eq. unfold allKids.
    unfold callee'. rewrite nameIs_adjusted, Et. fold callee'.
    rewrite Hc, Hargs. reflexivity.
Qed.

(** X4.  After [adjustTestDefinitions] no call [test(x, fn, ...)] is left
    whose [fn] is a function with parameters, on any tree; on a tree that has
    none the pass changes nothing, and so the pass is idempotent. *)
Theorem adjustTestDefinitions_settles :
  forall n : node,
    adjusted (adjustTestDefinitions_node n) = true
    /\ adjustTestDefinitions_node (adjustTestDefinitions_node n) =
       adjustTestDefinitions_node n
    /\ (adjusted n = true -> adjustTestDefinitions_node n = n).
Proof.
  intro n. split; [apply adjustTestDefinitions_node_adjusted|]. split.
  - apply adjustTestDefinitions_node_id. apply adjustTestDefinitions_node_adjusted.
  - apply adjustTestDefinitions_node_id.
Qed.

Lemma adjustTestDefinitions_settles_witness :
  adjustTestDefinitions_node
    (CallExpression (Identifier "test" None)
       [Literal (LString "works"); ArrowFunctionExpression [] (BlockStatement [])]) =
  CallExpression (Identifier "test" None)
    [Literal (LString "works"); ArrowFunctionExpression [] (BlockStatement [])].
Proof.
  apply (proj2 (proj2 (adjustTestDefinitions_settles
           (CallExpression (Identifier "test" None)
              [Literal (LString "works");
               ArrowFunctionExpression [] (BlockStatement [])])))).
  reflexivity.
Defined.

(** X5.  On [test(x, fn, ...)] with [fn] an arrow function or a function
    expression, [adjustTestDefinitions] empties the parameter list of [fn],
    whatever the parameters are called and however many there are; the other
    arguments and the body of [fn] are what the pass makes of them.  A call
    [test(fn)] with the function as its only argument keeps the
    parameters. *)
Theorem adjustTestDefinitions_clears_all_params :
  forall (a : option tstype) (x : node) (params rest : list node) (body : node)
         (id : option string),
    adjustTestDefinitions_node
      (CallExpression (Identifier "test" a)
         (x :: ArrowFunctionExpression params body :: rest)) =
    CallExpression (Identifier "test" a)
      (adjustTestDefinitions_node x
         :: ArrowFunctionExpression [] (adjustTestDefinitions_node body)
         :: map adjustTestDefinitions_node rest)
    /\ adjustTestDefinitions_node
         (CallExpression (Identifier "test" a)
            (x :: FunctionExpression id params body :: rest)) =
       CallExpression (Identifier "test" a)
         (adjustTestDefinitions_node x
            :: FunctionExpression id [] (adjustTestDefinitions_node body)
            :: map adjustTestDefinitions_node rest)
    /\ adjustTestDefinitions_node
         (CallExpression (Identifier "test" a) [ArrowFunctionExpression params body]) =
       CallExpression (Identifier "test" a)
         [ArrowFunctionExpression (map adjustTestDefinitions_node params)
            (adjustTestDefinitions_node body)].
Proof.
  intros a x params rest body id. repeat split.
  - rewrite adjustTestDefinitions_node_eq. cbv zeta.
    change (nameIs "test" (Identifier "test" a)) with true. cbv iota.
    unfold adjustTestDefinitions_each. simpl.
    destruct params; reflexivity.
  - rewrite adjustTestDefinitions_node_eq. cbv zeta.
    change (nameIs "test" (Identifier "test" a)) with true. cbv iota.
    unfold adjustTestDefinitions_each. simpl.
    destruct params; reflexivity.
Qed.

(** ** rewriteTestCallExpression *)

Lemma rewriteTestCallExpression_node_eq (n : node) :
  rewriteTestCallExpression_node n =
  match n with
  | CallExpression callee args =>
      let callee' := rewriteTestCallExpression_node callee in
      let args' := map rewriteTestCallExpression_node args in
      if lifecycleFilter callee
      then rewriteTestCallExpression_each callee' args'
      else CallExpression callee' args'
  | _ => mapKids rewriteTestCallExpression_node
           (map rewriteTestCallExpression_node) n
  end.
Proof. destruct n; reflexivity. Qed.

(** The two shapes of what the body of [forEach] returns. *)
Lemma rewriteTestCallExpression_each_shape (callee : node) (args : list node) :
  (keysInclude avaToJestLifecycleMethods (calleePropertyName callee) = false
   /\ rewriteTestCallExpression_each callee args = CallExpression callee args)
  \/ (exists jestEquivalent args1,
         (args1 = args \/ args1 = tl args)
         /\ (rewriteTestCallExpression_each callee args =
             CallExpression (Identifier jestEquivalent None) args1
             \/ exists callback,
                  nth_error args1 1 = Some callback
                  /\ rewriteTestCallExpression_each callee args =
                     CallExpression (Identifier jestEquivalent None)
                       (setNth 1 (shiftAssertionParam callback) args1))).
Proof.
  unfold rewriteTestCallExpression_each.
  destruct (keysInclude avaToJestLifecycleMethods (calleePropertyName callee)) eqn:Ek;
    [|left; split; reflexivity].
  destruct (ownProperty avaToJestLifecycleMethods
              (propertyKey (calleePropertyName callee))) as [j|] eqn:Eo.
  - right. exists j.
    exists (match args with
            | first :: rest => if isStringLiteral first then rest else args
            | [] => args
            end).
    split.
    + destruct args as [|first rest]; [left; reflexivity|].
      destruct (isStringLiteral first); [right|left]; reflexivity.
    + destruct (nth_error _ 1) as [cb|] eqn:E; [right|left; reflexivity].
      exists cb. split; reflexivity.
  - exfalso. destruct (calleePropertyName callee) as [s|]; [|discriminate].
    simpl in Ek, Eo. unfold avaToJestLifecycleMethods in *. simpl in Ek, Eo.
    repeat match type of Eo with
           | (if ?b then _ else _) = None => destruct b; [discriminate|]
           end.
    simpl in Ek. discriminate.
Qed.

Lemma rewriteTestCallExpression_each_call (callee : node) (args : list node) :
  exists c x, rewriteTestCallExpression_each callee args = CallExpression c x.
Proof.
  destruct (rewriteTestCallExpression_each_shape callee args)
    as [[_ E]|[j [args1 [_ [E|[cb [_ E]]]]]]]; rewrite E; eauto.
Qed.

Lemma nodeName_rewritten (k : node) :
  nodeName (rewriteTestCallExpression_node k) = nodeName k.
Proof.
  rewrite rewriteTestCallExpression_node_eq. destruct k; try reflexivity.
  cbv zeta. destruct (lifecycleFilter k); [|reflexivity].
  destruct (rewriteTestCallExpression_each_call (rewriteTestCallExpression_node k)
              (map rewriteTestCallExpression_node arguments)) as [c [x E]].
  rewrite E. reflexivity.
Qed.

Lemma nameIs_rewritten (s : string) (k : node) :
  nameIs s (rewriteTestCallExpression_node k) = nameIs s k.
Proof. unfold nameIs. rewrite nodeName_rewritten. reflexivity. Qed.

Lemma lifecycleFilter_rewritten (k : node) :
  lifecycleFilter (rewriteTestCallExpression_node k) = lifecycleFilter k
  /\ calleePropertyName (rewriteTestCallExpression_node k) = calleePropertyName k.
Proof.
  rewrite rewriteTestCallExpression_node_eq. destruct k; try (split; reflexivity).
  - simpl. rewrite nameIs_rewritten, nodeName_rewritten. split; reflexivity.
  - cbv zeta. destruct (lifecycleFilter k); [|split; reflexivity].
    destruct (rewriteTestCallExpression_each_call (rewriteTestCallExpression_node k)
                (map rewriteTestCallExpression_node arguments)) as [c [x E]].
    rewrite E. split; reflexivity.
Qed.

Lemma noLifecycleCall_eq (n : node) :
  noLifecycleCall n =
  match n with
  | CallExpression callee _ =>
      negb (lifecycleFilter callee
            && keysInclude avaToJestLifecycleMethods (calleePropertyName callee))
  | _ => true
  end && allKids noLifecycleCall noLifecycleCall n.
Proof. destruct n; reflexivity. Qed.

Lemma noLifecycleCall_kids (n : node) :
  noLifecycleCall n = true ->
  Forall_kids (fun k => noLifecycleCall k = true)
    (Forall (fun k => noLifecycleCall k = true)) n.
Proof.
  rewrite noLifecycleCall_eq. intro H. apply andb_true_iff in H. destruct H as [_ H].
  apply allKids_Forall_kids in H.
  eapply Forall_kids_impl; [| |exact H]; simpl; auto.
  intros l Hl. apply forallb_Forall. exact Hl.
Qed.

Lemma rewriteTestCallExpression_node_id (n : node) :
  noLifecycleCall n = true -> rewriteTestCallExpression_node n = n.
Proof.
  induction n as [n IH] using node_kids_ind. intro Hn.
  pose proof (Forall_kids_and _ _ _ _ _ IH (noLifecycleCall_kids _ Hn)) as H.
  assert (Hk : mapKids rewriteTestCallExpression_node
                 (map rewriteTestCallExpression_node) n = n).
  { apply mapKids_id. eapply Forall_kids_impl; [| |exact H]; simpl.
    - intros k [H1 H2]. auto.
    - intros l [H1 H2]. rewrite <- (map_id l) at 2. apply map_ext_in.
      rewrite Forall_forall in *. auto. }
  rewrite rewriteTestCallExpression_node_eq.
  destruct n; try exact Hk.
  cbv zeta. simpl in Hk. inversion Hk as [[Hc Ha]]. rewrite !Hc, !Ha.
  destruct (lifecycleFilter n) eqn:Ef; [|reflexivity].
  rewrite noLifecycleCall_eq in Hn. apply andb_true_iff in Hn. destruct Hn as [Hn _].
  apply negb_true_iff in Hn. rewrite Ef in Hn. simpl in Hn.
  unfold rewriteTestCallExpression_each. rewrite Hn. reflexivity.
Qed.

Lemma noLifecycleCall_shiftAssertionParam (f : node) :
  noLifecycleCall f = true -> noLifecycleCall (shiftAssertionParam f) = true.
Proof.
  destruct f; simpl; auto.
  - destruct params as [|p ps]; simpl; auto.
    destruct (nameIs "t" p); simpl; auto.
    rewrite !andb_true_iff. tauto.
  - destruct params as [|p ps]; simpl; auto.
    destruct (nameIs "t" p); simpl; auto.
    rewrite !andb_true_iff. tauto.
Qed.

Lemma forallb_tl (A : Type) (p : A -> bool) (l : list A) :
  forallb p l = true -> forallb p (tl l) = true.
Proof.
  destruct l; simpl; auto. intro H. apply andb_true_iff in H. apply H.
Qed.

Lemma rewriteTestCallExpression_node_settled (n : node) :
  noLifecycleCall (rewriteTestCallExpression_node n) = true.
Proof.
  induction n as [n IH] using node_kids_ind.
  pose proof (allKids_mapKids noLifecycleCall rewriteTestCallExpression_node n IH)
    as Hall.
  rewrite rewriteTestCallExpression_node_eq.
  destruct n; try (rewrite noLifecycleCall_eq, Hall; reflexivity).
  cbv zeta. simpl in Hall. apply andb_true_iff in Hall. destruct Hall as [Hc Hargs].
  destruct (lifecycleFilter_rewritten n) as [Ef En].
  set (callee' := rewriteTestCallExpression_node n) in *.
  set (args' := map rewriteTestCallExpression_node arguments) in *.
  destruct (lifecycleFilter n) eqn:Efn.
  - destruct (rewriteTestCallExpression_each_shape callee' args')
      as [[Ek E]|[j [args1 [Ha [E|[cb [Hcb E]]]]]]]; rewrite E.
    + rewrite noLifecycleCall_eq. unfold allKids. rewrite Ek, andb_false_r, Hc, Hargs.
      reflexivity.
    + rewrite noLifecycleCall_eq. unfold allKids. simpl andb.
      destruct Ha; subst; [exact Hargs|apply forallb_tl; exact Hargs].
    + assert (H1 : forallb noLifecycleCall args1 = true)
        by (destruct Ha; subst; [exact Hargs|apply forallb_tl; exact Hargs]).
      rewrite noLifecycleCall_eq. unfold allKids.
      change (noLifecycleCall (Identifier j None)) with true.
      change (lifecycleFilter (Identifier j None)) with false.
      rewrite !andb_true_l. apply forallb_setNth; [exact H1|].
      apply noLifecycleCall_shiftAssertionParam.
      eapply forallb_nth_error; [exact H1|exact Hcb].
  - rewrite noLifecycleCall_eq. unfold allKids. rewrite Ef, Hc, Hargs. reflexivity.
Qed.

(** X6.  After [rewriteTestCallExpression] no call [test.<name>(...)] with
    [name] in the lifecycle table is left, on any tree; on a tree that has
    none (calls such as [test.serial(...)] included) the pass changes nothing,
    and so the pass is idempotent. *)
Theorem rewriteTestCallExpression_settles :
  forall n : node,
    noLifecycleCall (rewriteTestCallExpression_node n) = true
    /\ rewriteTestCallExpression_node (rewriteTestCallExpression_node n) =
       rewriteTestCallExpression_node n
    /\ (noLifecycleCall n = true -> rewriteTestCallExpression_node n = n).
Proof.
  intro n. split; [apply rewriteTestCallExpression_node_settled|]. split.
  - apply rewriteTestCallExpression_node_id.
    apply rewriteTestCallExpression_node_settled.
  - apply rewriteTestCallExpression_node_id.
Qed.

Lemma rewriteTestCallExpression_settles_witness :
  rewriteTestCallExpression_node
    (CallExpression
       (MemberExpression false (Identifier "test" None) (Identifier "serial" None))
       [Literal (LString "works"); ArrowFunctionExpression [] (BlockStatement [])]) =
  CallExpression
    (MemberExpression false (Identifier "test" None) (Identifier "serial" None))
    [Literal (LString "works"); ArrowFunctionExpression [] (BlockStatement [])].
Proof.
  apply (proj2 (proj2 (rewriteTestCallExpression_settles
           (CallExpression
              (MemberExpression false (Identifier "test" None) (Identifier "serial" None))
              [Literal (LString "works");
               ArrowFunctionExpression [] (BlockStatement [])])))).
  reflexivity.
Defined.

Lemma isStringLiteral_rewritten (k : node) :
  isStringLiteral (rewriteTestCallExpression_node k) = isStringLiteral k.
Proof.
  rewrite rewriteTestCallExpression_node_eq. destruct k; try reflexivity.
  cbv zeta. destruct (lifecycleFilter k); [|reflexivity].
  destruct (rewriteTestCallExpression_each_call (rewriteTestCallExpression_node k)
              (map rewriteTestCallExpression_node arguments)) as [c [x E]].
  rewrite E. reflexivity.
Qed.

Lemma keysInclude_own (obj : list (string * string)) (k v : string) :
  ownProperty obj k = Some v -> keysInclude obj (Some k) = true.
Proof.
  induction obj as [|[k' v'] r IH]; simpl; [discriminate|].
  destruct (String.eqb k k'); [reflexivity|]. exact IH.
Qed.

(** X7.  For every name of the lifecycle table, hooks and modifiers alike,
    [test.<name>('title', callback)] becomes [<jestEquivalent>(callback)]:
    the title is dropped (also for [only], [skip], [failing] and [todo]) and
    the callback keeps its parameters; what is below the callback is
    rewritten by the pass. *)
Theorem lifecycle_title_dropped :
  forall (name jestEquivalent title : string) (a a' : option tstype) (callback : node),
    ownProperty avaToJestLifecycleMethods name = Some jestEquivalent ->
    rewriteTestCallExpression_node
      (CallExpression
         (MemberExpression false (Identifier "test" a) (Identifier name a'))
         [Literal (LString title); callback]) =
    CallExpression (Identifier jestEquivalent None)
      [rewriteTestCallExpression_node callback].
Proof.
  intros name j title a a' callback H.
  rewrite rewriteTestCallExpression_node_eq. cbv zeta.
  change (lifecycleFilter (MemberExpression false (Identifier "test" a) (Identifier name a')))
    with true. cbv iota.
  apply rewriteTestCallExpression_each_titled. exact H.
Qed.

Lemma lifecycle_title_dropped_witness :
  rewriteTestCallExpression_node
    (CallExpression
       (MemberExpression false (Identifier "test" None) (Identifier "only" None))
       [Literal (LString "adds"); ArrowFunctionExpression [Identifier "t" None]
                                    (BlockStatement [])]) =
  CallExpression (Identifier "test.only" None)
    [rewriteTestCallExpression_node
       (ArrowFunctionExpression [Identifier "t" None] (BlockStatement []))].
Proof.
  apply (@lifecycle_title_dropped "only" "test.only" "adds" None None
           (ArrowFunctionExpression [Identifier "t" None] (BlockStatement []))).
  reflexivity.
Defined.

(** X8.  For every name of the lifecycle table, when the first argument of
    [test.<name>(x, callback, ...)] is not a string literal, nothing is
    dropped from the argument list, and a callback whose first parameter is
    named [t] loses that parameter and keeps the others. *)
Theorem lifecycle_parameter_removed :
  forall (name jestEquivalent : string) (a a' annotation : option tstype)
         (x body : node) (params rest : list node),
    ownProperty avaToJestLifecycleMethods name = Some jestEquivalent ->
    isStringLiteral x = false ->
    rewriteTestCallExpression_node
      (CallExpression
         (MemberExpression false (Identifier "test" a) (Identifier name a'))
         (x :: ArrowFunctionExpression (Identifier "t" annotation :: params) body :: rest)) =
    CallExpression (Identifier jestEquivalent None)
      (rewriteTestCallExpression_node x
         :: ArrowFunctionExpression (map rewriteTestCallExpression_node params)
              (rewriteTestCallExpression_node body)
         :: map rewriteTestCallExpression_node rest).
Proof.
  intros name j a a' annotation x body params rest H Hx.
  rewrite rewriteTestCallExpression_node_eq. cbv zeta.
  change (lifecycleFilter (MemberExpression false (Identifier "test" a) (Identifier name a')))
    with true. cbv iota.
  unfold rewriteTestCallExpression_each.
  change (calleePropertyName
            (rewriteTestCallExpression_node
               (MemberExpression false (Identifier "test" a) (Identifier name a'))))
    with (Some name).
  rewrite (keysInclude_own _ _ H). simpl propertyKey. rewrite H.
  simpl map. cbv iota. rewrite isStringLiteral_rewritten, Hx. reflexivity.
Qed.

Lemma lifecycle_parameter_removed_witness :
  rewriteTestCallExpression_node
    (CallExpression
       (MemberExpression false (Identifier "test" None) (Identifier "skip" None))
       [Identifier "title" None;
        ArrowFunctionExpression [Identifier "t" None; Identifier "input" None]
          (BlockStatement [])]) =
  CallExpression (Identifier "test.skip" None)
    [rewriteTestCallExpression_node (Identifier "title" None);
     ArrowFunctionExpression
       (map rewriteTestCallExpression_node [Identifier "input" None])
       (rewriteTestCallExpression_node (BlockStatement []))].
Proof.
  apply (@lifecycle_parameter_removed "skip" "test.skip" None None None
           (Identifier "title" None) (BlockStatement []) [Identifier "input" None] []);
    reflexivity.
Defined.

(** ** updateAssertions: the other branches *)

(** X9.  The calls [t.end(...)], [t.fail(...)] and [t.pass(...)] are not
    matched by the assertion pass: they stay as they are and nothing is
    written to the console. *)
Theorem excluded_assertions_untouched :
  forall (name : string) (computed : bool) (a a' : option tstype) (args : list node)
         (c : console),
    In name tPropertiesNotMapped ->
    Forall (fun k => noAssertionCall k = true) args ->
    let call :=
      CallExpression (MemberExpression computed (Identifier "t" a) (Identifier name a'))
        args in
    updateAssertions_node call c = (Returned (call, call), c).
Proof.
  intros name computed a a' args c Hin Hargs call.
  apply updateAssertions_node_noAssertionCall.
  unfold call.
  change (negb (assertionFilter
                  (MemberExpression computed (Identifier "t" a) (Identifier name a')))
          && (noAssertionCall
                (MemberExpression computed (Identifier "t" a) (Identifier name a'))
              && forallb noAssertionCall args) = true).
  apply forallb_Forall in Hargs. rewrite Hargs.
  simpl in Hin. destruct Hin as [<-|[<-|[<-|[]]]]; reflexivity.
Qed.

Lemma excluded_assertions_untouched_witness :
  updateAssertions_node
    (CallExpression (MemberExpression false (Identifier "t" None) (Identifier "pass" None))
       []) [] =
  (Returned
     (CallExpression (MemberExpression false (Identifier "t" None) (Identifier "pass" None))
        [],
      CallExpression (MemberExpression false (Identifier "t" None) (Identifier "pass" None))
        []),
   []).
Proof.
  apply (@excluded_assertions_untouched "pass" false None None [] []).
  - right. right. left. reflexivity.
  - constructor.
Defined.

Lemma newExpression_bool {S : Type} (old : option string) (p : node) (rest : list node) :
  isExpression p = true ->
  pure_as (S := S) (newExpression old (JString SPECIAL_BOOL) (p :: rest))
    (ExpressionStatement
       (CallExpression
          (MemberExpression false
             (CallExpression (Identifier "expect" None) [p])
             (Identifier (if optIs old "true" then "toBeTruthy" else "toBeFalsy") None))
          [])).
Proof.
  intros Ep s. unfold newExpression. simpl jsIs. cbv iota.
  unfold bind, j_identifier, j_callExpression, j_memberExpression,
    j_expressionStatement, ret, lift; simpl.
  rewrite Ep. reflexivity.
Qed.

Lemma newExpression_plan {S : Type} (old : option string) (p : node) (rest : list node) :
  isExpression p = true ->
  pure_as (S := S) (newExpression old (JString SPECIAL_PLAN_CASE) (p :: rest))
    (ExpressionStatement
       (CallExpression
          (MemberExpression false (Identifier "expect" None)
             (Identifier "assertions" None))
          [p])).
Proof.
  intros Ep s. unfold newExpression. simpl jsIs. cbv iota.
  unfold bind, j_identifier, j_callExpression, j_memberExpression,
    j_expressionStatement, ret, lift; simpl.
  rewrite Ep. reflexivity.
Qed.

(** X10.  [t.true(p, ...)] becomes the expression statement of
    [expect(p).toBeTruthy()] and [t.false(p, ...)] that of
    [expect(p).toBeFalsy()]: the matcher takes no argument, and arguments
    after the first (a message) are dropped.  [p] is an expression and the
    arguments hold no assertion call of their own. *)
Theorem boolean_assertion_conversion :
  forall (name : string) (a a' : option tstype) (p : node) (rest : list node)
         (c : console),
    name = "true" \/ name = "false" ->
    isExpression p = true ->
    Forall (fun k => noAssertionCall k = true) (p :: rest) ->
    let call :=
      CallExpression (MemberExpression false (Identifier "t" a) (Identifier name a'))
        (p :: rest) in
    updateAssertions_node call c =
    (Returned
       (call,
        ExpressionStatement
          (CallExpression
             (MemberExpression false
                (CallExpression (Identifier "expect" None) [p])
                (Identifier (if String.eqb name "true" then "toBeTruthy" else "toBeFalsy")
                   None))
             [])),
     c).
Proof.
  intros name a a' p rest c Hname Ep Hargs call.
  apply updateAssertions_node_mapped; try assumption.
  - destruct Hname; subst; reflexivity.
  - destruct Hname; subst; discriminate.
  - replace (getProperty tPropertiesMap (Some name)) with (JString SPECIAL_BOOL)
      by (destruct Hname; subst; reflexivity).
    apply newExpression_bool. exact Ep.
Qed.

Lemma boolean_assertion_conversion_witness :
  updateAssertions_node
    (CallExpression (MemberExpression false (Identifier "t" None) (Identifier "false" None))
       [Identifier "flag" None; Literal (LString "must be off")]) [] =
  (Returned
     (CallExpression (MemberExpression false (Identifier "t" None) (Identifier "false" None))
        [Identifier "flag" None; Literal (LString "must be off")],
      ExpressionStatement
        (CallExpression
           (MemberExpression false
              (CallExpression (Identifier "expect" None) [Identifier "flag" None])
              (Identifier "toBeFalsy" None))
           [])),
   []).
Proof.
  apply (@boolean_assertion_conversion "false" None None (Identifier "flag" None)
           [Literal (LString "must be off")] []).
  - right. reflexivity.
  - reflexivity.
  - repeat constructor.
Defined.

(** X11.  [t.plan(n, ...)] becomes the expression statement of
    [expect.assertions(n)], for every expression [n] without assertion calls
    of its own. *)
Theorem plan_conversion :
  forall (a a' : option tstype) (n : node) (rest : list node) (c : console),
    isExpression n = true ->
    Forall (fun k => noAssertionCall k = true) (n :: rest) ->
    let call :=
      CallExpression (MemberExpression false (Identifier "t" a) (Identifier "plan" a'))
        (n :: rest) in
    updateAssertions_node call c =
    (Returned
       (call,
        ExpressionStatement
          (CallExpression
             (MemberExpression false (Identifier "expect" None)
                (Identifier "assertions" None))
             [n])),
     c).
Proof.
  intros a a' n rest c En Hargs call.
  apply updateAssertions_node_mapped; try assumption.
  - reflexivity.
  - discriminate.
  - apply newExpression_plan. exact En.
Qed.

Lemma plan_conversion_witness :
  updateAssertions_node
    (CallExpression (MemberExpression false (Identifier "t" None) (Identifier "plan" None))
       [Literal (LNumber 3)]) [] =
  (Returned
     (CallExpression (MemberExpression false (Identifier "t" None) (Identifier "plan" None))
        [Literal (LNumber 3)],
      ExpressionStatement
        (CallExpression
           (MemberExpression false (Identifier "expect" None)
              (Identifier "assertions" None))
           [Literal (LNumber 3)])),
   []).
Proof.
  apply (@plan_conversion None None (Literal (LNumber 3)) [] []).
  - reflexivity.
  - repeat constructor.
Defined.

(** X12.  A plain-rename assertion with more than two arguments,
    [t.<name>(p, q, message, ...)]: the new node is the one of
    [t.<name>(p, q)]; the arguments after the second are dropped. *)
Theorem rename_drops_message :
  forall (name mappedName : string) (a a' : option tstype) (p q : node)
         (rest : list node) (c : console),
    ownProperty tPropertiesMap name = Some mappedName ->
    mappedName <> SPECIAL_BOOL ->
    mappedName <> SPECIAL_THROWS_CASE ->
    mappedName <> SPECIAL_PLAN_CASE ->
    isExpression p = true -> isExpression q = true ->
    Forall (fun k => noAssertionCall k = true) (p :: q :: rest) ->
    let call :=
      CallExpression (MemberExpression false (Identifier "t" a) (Identifier name a'))
        (p :: q :: rest) in
    updateAssertions_node call c =
    (Returned
       (call,
        ExpressionStatement
          (CallExpression
             (MemberExpression false
                (CallExpression (Identifier "expect" None) [p])
                (Identifier mappedName None))
             [q])),
     c).
Proof.
  intros name mappedName a a' p q rest c Hown Hb Ht Hp Ep Eq Hargs call.
  apply updateAssertions_node_mapped.
  - apply ownProperty_In in Hown. simpl in Hown.
    repeat (destruct Hown as [Hown|Hown];
            [inversion Hown; subst; reflexivity|]).
    contradiction.
  - rewrite (getProperty_own _ _ Hown). discriminate.
  - exact Hargs.
  - rewrite (getProperty_own _ _ Hown).
    apply newExpression_plain; assumption.
Qed.

Lemma rename_drops_message_witness :
  updateAssertions_node
    (CallExpression (MemberExpression false (Identifier "t" None) (Identifier "is" None))
       [Identifier "sum" None; Literal (LNumber 4); Literal (LString "2 + 2")]) [] =
  (Returned
     (CallExpression (MemberExpression false (Identifier "t" None) (Identifier "is" None))
        [Identifier "sum" None; Literal (LNumber 4); Literal (LString "2 + 2")],
      ExpressionStatement
        (CallExpression
           (MemberExpression false
              (CallExpression (Identifier "expect" None) [Identifier "sum" None])
              (Identifier "toBe" None))
           [Literal (LNumber 4)])),
   []).
Proof.
  apply (@rename_drops_message "is" "toBe" None None (Identifier "sum" None)
           (Literal (LNumber 4)) [Literal (LString "2 + 2")] []);
    try reflexivity; try discriminate.
  repeat constructor.
Defined.

(** X13.  A call [t.<name>(...)] whose name is not excluded, is not a key of
    the rule table and is not the name of a property of [Object.prototype]:
    the call stays in the tree and one line, naming [name], is written to
    the console. *)
Theorem unknown_assertion_reported :
  forall (name : string) (computed : bool) (a a' : option tstype) (args : list node)
         (c : console),
    setHas tPropertiesNotMapped (Some name) = false ->
    ownProperty tPropertiesMap name = None ->
    existsb (String.eqb name) objectPrototype = false ->
    Forall (fun k => noAssertionCall k = true) args ->
    let call :=
      CallExpression (MemberExpression computed (Identifier "t" a) (Identifier name a'))
        args in
    updateAssertions_node call c =
    (Returned (call, call),
     c ++ [(dquote ++ name ++ dquote ++ " is currently not supported")%string]).
Proof.
  intros name computed a a' args c Hset Hown Hproto Hargs call.
  apply updateAssertions_node_unmapped; try assumption.
  unfold getProperty. simpl propertyKey. rewrite Hown, Hproto. reflexivity.
Qed.

Lemma unknown_assertion_reported_witness :
  updateAssertions_node
    (CallExpression (MemberExpression false (Identifier "t" None) (Identifier "banana" None))
       [Identifier "p" None]) [] =
  (Returned
     (CallExpression
        (MemberExpression false (Identifier "t" None) (Identifier "banana" None))
        [Identifier "p" None],
      CallExpression
        (MemberExpression false (Identifier "t" None) (Identifier "banana" None))
        [Identifier "p" None]),
   [] ++ [(dquote ++ "banana" ++ dquote ++ " is currently not supported")%string]).
Proof.
  apply (@unknown_assertion_reported "banana" false None None [Identifier "p" None] []);
    try reflexivity.
  repeat constructor.
Defined.

Lemma newExpression_outcome {S : Type} (old : option string) (new : jsvalue)
    (args : list node) (s : S) :
  (exists callee x,
      newExpression old new args s =
      (Returned (ExpressionStatement (CallExpression callee x)), s))
  \/ (exists e, newExpression old new args s = (Thrown e, s)).
Proof.
  unfold newExpression, bind, j_identifier, j_callExpression, j_memberExpression,
    j_expressionStatement, j_blockStatement, j_functionExpression, ret, lift.
  repeat match goal with
         | |- context [if ?b then _ else _] => destruct b
         | |- context [match definedExpressions ?l with _ => _ end] =>
             destruct (definedExpressions l)
         | |- context [match ?v with JUndefined => _ | _ => _ end] => destruct v
         end;
    simpl;
    repeat match goal with
           | |- context [if ?b then _ else _] => destruct b
           | |- context [match definedExpressions ?l with _ => _ end] =>
               destruct (definedExpressions l)
           end;
    solve [left; eexists; eexists; reflexivity | right; eexists; reflexivity].
Qed.

(** X14.  What the body of [forEach] does on a matched call is one of
    three things: it writes one line to the console and leaves the call
    (this is when the table answers [undefined]); or it writes nothing and
    returns an expression statement around a call expression; or it writes
    nothing and throws.  A call is never both reported and replaced. *)
Theorem updateAssertions_each_outcomes :
  forall (callee : node) (args : list node) (c : console),
    (getProperty tPropertiesMap (calleePropertyName callee) = JUndefined
     /\ updateAssertions_each callee args c =
        (Returned None, c ++ [notSupported (calleePropertyName callee)]))
    \/ (getProperty tPropertiesMap (calleePropertyName callee) <> JUndefined
        /\ exists callee' args',
             updateAssertions_each callee args c =
             (Returned (Some (ExpressionStatement (CallExpression callee' args'))), c))
    \/ (getProperty tPropertiesMap (calleePropertyName callee) <> JUndefined
        /\ exists e, updateAssertions_each callee args c = (Thrown e, c)).
Proof.
  intros callee args c. unfold updateAssertions_each.
  destruct (getProperty tPropertiesMap (calleePropertyName callee)) as [|v|v] eqn:E.
  - left. split; reflexivity.
  - right.
    destruct (newExpression_outcome (calleePropertyName callee) (JString v) args c)
      as [[f [x H]]|[e H]]; [left|right]; (split; [discriminate|]).
    + exists f, x. unfold bind. rewrite H. reflexivity.
    + exists e. unfold bind. rewrite H. reflexivity.
  - right.
    destruct (newExpression_outcome (calleePropertyName callee) (JInherited v) args c)
      as [[f [x H]]|[e H]]; [left|right]; (split; [discriminate|]).
    + exists f, x. unfold bind. rewrite H. reflexivity.
    + exists e. unfold bind. rewrite H. reflexivity.
Qed.

(** X15.  On a file in which no call matches its filter, [updateAssertions]
    returns the file as it is, writes nothing and does not throw. *)
Theorem updateAssertions_nothing_to_do :
  forall (root : program) (c : console),
    forallb (onTop noAssertionCall) root = true ->
    updateAssertions root c = (Returned root, c).
Proof.
  intros root c H. apply updateAssertions_unmatched. exact H.
Qed.

Lemma updateAssertions_nothing_to_do_witness :
  updateAssertions
    [ ImportDeclaration ["helper"] (LString "./helper");
      Statement (ExpressionStatement
                   (CallExpression
                      (MemberExpression false (Identifier "t" None) (Identifier "pass" None))
                      [])) ] [] =
  (Returned
     [ ImportDeclaration ["helper"] (LString "./helper");
       Statement (ExpressionStatement
                    (CallExpression
                       (MemberExpression false (Identifier "t" None)
                          (Identifier "pass" None))
                       [])) ],
   []).
Proof.
  apply (@updateAssertions_nothing_to_do
           [ ImportDeclaration ["helper"] (LString "./helper");
             Statement (ExpressionStatement
                          (CallExpression
                             (MemberExpression false (Identifier "t" None)
                                (Identifier "pass" None))
                             [])) ] []).
  reflexivity.
Defined.

(** ** generateSharedContext on any inline type literal *)

Lemma sharedContextProperties_names (members : list tsmember) :
  sharedContextProperties members =
  map (fun name => ObjectProperty (Identifier name None) NullLiteral)
    (simpleMemberNames members).
Proof.
  induction members as [|m r IH]; simpl; [reflexivity|].
  rewrite map_app, <- IH. destruct m as [[name|v] t|k|]; reflexivity.
Qed.

Lemma sharedContextVariable_noTest (members : list tsmember) :
  findTestDeclarators (sharedContextVariable (sharedContextProperties members)) = [].
Proof.
  unfold sharedContextVariable. simpl. rewrite !app_nil_r.
  apply flat_map_nil. rewrite sharedContextProperties_names.
  apply Forall_forall. intros x Hx. apply in_map_iff in Hx.
  destruct Hx as [name [<- _]]. reflexivity.
Qed.

(** X16.  A file whose only [test] variable is declared at the top level as
    [<e> as <Name><{ ...members }>], for any list of members (the empty one
    included): [generateSharedContext] writes nothing to the console and
    returns the file with that declaration replaced by the alias of the
    type literal and the variable [sharedContext], whose object has one
    [null] property per member of the form [identifier: type], in the order
    of the members; method and index signatures and members with a literal
    key give no property.  The statements before and after are not
    touched. *)
Theorem generateSharedContext_extracts :
  forall (pre post : program) (kind name : string) (annotation : option tstype)
         (e : node) (members : list tsmember) (c : console),
    flat_map findTestDeclaratorsTop pre = [] ->
    flat_map findTestDeclaratorsTop post = [] ->
    findTestDeclarators e = [] ->
    generateSharedContext
      (pre ++ Statement
                (VariableDeclaration kind
                   [VariableDeclarator (Identifier "test" annotation)
                      (Some (TSAsExpression e
                               (TSTypeReference name (Some [TSTypeLiteral members]))))])
           :: post) c =
    (Returned
       (pre ++ Statement (sharedContextAlias (TSTypeLiteral members))
            :: Statement
                 (sharedContextVariable
                    (map (fun member => ObjectProperty (Identifier member None) NullLiteral)
                       (simpleMemberNames members)))
            :: post),
     c).
Proof.
  intros pre post kind name annotation e members c Hpre Hpost He.
  rewrite <- sharedContextProperties_names.
  unfold generateSharedContext.
  fold (typedTestDeclarator name annotation e (TSTypeLiteral members)).
  fold (typedTestDeclaration kind name annotation e (TSTypeLiteral members)).
  rewrite found_one_test_variable by assumption.
  unfold typedTestDeclarator at 1. cbv iota beta.
  fold (sharedContextAlias (TSTypeLiteral members)).
  fold (sharedContextVariable (sharedContextProperties members)).
  unfold bind.
  rewrite insertAroundTop_one by assumption.
  unfold ret.
  rewrite removeFirstTestDeclarator_one;
    [reflexivity|assumption..|reflexivity|apply sharedContextVariable_noTest].
Qed.

Lemma generateSharedContext_extracts_witness :
  generateSharedContext
    ([] ++ Statement
             (VariableDeclaration "const"
                [VariableDeclarator (Identifier "test" None)
                   (Some (TSAsExpression (Identifier "anyTest" None)
                            (TSTypeReference "TestFn"
                               (Some [TSTypeLiteral
                                        [TSPropertySignature (KIdentifier "db")
                                           (Some (TSKeyword "object"));
                                         TSMethodSignature (KIdentifier "close");
                                         TSIndexSignature]]))))])
        :: []) [] =
  (Returned
     ([] ++ Statement
              (sharedContextAlias
                 (TSTypeLiteral
                    [TSPropertySignature (KIdentifier "db") (Some (TSKeyword "object"));
                     TSMethodSignature (KIdentifier "close");
                     TSIndexSignature]))
         :: Statement
              (sharedContextVariable
                 (map (fun member => ObjectProperty (Identifier member None) NullLiteral)
                    (simpleMemberNames
                       [TSPropertySignature (KIdentifier "db") (Some (TSKeyword "object"));
                        TSMethodSignature (KIdentifier "close");
                        TSIndexSignature])))
         :: []),
   []).
Proof.
  apply (@generateSharedContext_extracts [] [] "const" "TestFn" None
           (Identifier "anyTest" None)
           [TSPropertySignature (KIdentifier "db") (Some (TSKeyword "object"));
            TSMethodSignature (KIdentifier "close");
            TSIndexSignature] []);
    reflexivity.
Defined.

(** ** The pipeline and the imports *)

Lemma runs_bind_inv {S A B : Type} (m : Eff S A) (k : A -> Eff S B)
    (s s2 : S) (b : B) :
  runs (bind m k) s b s2 -> exists a s1, runs m s a s1 /\ runs (k a) s1 b s2.
Proof.
  unfold runs, bind. destruct (m s) as [[a|e] s1]; [|discriminate].
  intro H. exists a, s1. split; [reflexivity|exact H].
Qed.

Lemma runs_ret_inv {S A : Type} (a b : A) (s s' : S) :
  runs (ret a) s b s' -> b = a /\ s' = s.
Proof. unfold runs, ret. intro H. inversion H. split; reflexivity. Qed.

Lemma mapM_runs_inv {S A B : Type} (f : A -> Eff S B) (x : A) (r : list A)
    (s s' : S) (out : list B) :
  runs (mapM f (x :: r)) s out s' ->
  exists y ys s1, runs (f x) s y s1 /\ runs (mapM f r) s1 ys s' /\ out = y :: ys.
Proof.
  simpl. intro H.
  apply runs_bind_inv in H. destruct H as [y [s1 [Hy H]]].
  apply runs_bind_inv in H. destruct H as [ys [s2 [Hys H]]].
  apply runs_ret_inv in H. destruct H as [-> ->].
  exists y, ys, s1. auto.
Qed.

Lemma filter_isImport_statements (l : list node) : filter isImport (map Statement l) = [].
Proof. induction l; simpl; auto. Qed.

(** A step that keeps an import and answers a statement with statements. *)
Lemma mapM_concat_imports {S : Type} (g : toplevel -> Eff S (list toplevel))
    (l : program) :
  (forall sp src s out s',
      runs (g (ImportDeclaration sp src)) s out s' -> out = [ImportDeclaration sp src]) ->
  (forall st s out s', runs (g (Statement st)) s out s' -> filter isImport out = []) ->
  forall s ls s',
    runs (mapM g l) s ls s' -> filter isImport (concat ls) = filter isImport l.
Proof.
  intros Hi Hs. induction l as [|t r IH]; intros s ls s' H.
  - apply runs_ret_inv in H. destruct H as [-> _]. reflexivity.
  - apply mapM_runs_inv in H. destruct H as [y [ys [s1 [Hy [Hys ->]]]]].
    simpl concat. rewrite filter_app, (IH _ _ _ Hys).
    destruct t as [sp src|st].
    + rewrite (Hi _ _ _ _ _ Hy). reflexivity.
    + rewrite (Hs _ _ _ _ Hy). reflexivity.
Qed.

Lemma mapM_imports {S : Type} (g : toplevel -> Eff S toplevel) (l : program) :
  (forall sp src s out s',
      runs (g (ImportDeclaration sp src)) s out s' -> out = ImportDeclaration sp src) ->
  (forall st s out s', runs (g (Statement st)) s out s' -> isImport out = false) ->
  forall s out s',
    runs (mapM g l) s out s' -> filter isImport out = filter isImport l.
Proof.
  intros Hi Hs. induction l as [|t r IH]; intros s out s' H.
  - apply runs_ret_inv in H. destruct H as [-> _]. reflexivity.
  - apply mapM_runs_inv in H. destruct H as [y [ys [s1 [Hy [Hys ->]]]]].
    simpl. rewrite (IH _ _ _ Hys).
    destruct t as [sp src|st].
    + rewrite (Hi _ _ _ _ _ Hy). reflexivity.
    + rewrite (Hs _ _ _ _ Hy). reflexivity.
Qed.

Lemma insertAroundTop_imports (before after : node) (root out : program)
    (c c' : console) :
  runs (insertAroundTop before after root) c out c' ->
  filter isImport out = filter isImport root.
Proof.
  unfold insertAroundTop. intro H.
  apply runs_bind_inv in H. destruct H as [ls [c1 [Hls H]]].
  apply runs_ret_inv in H. destruct H as [-> _].
  eapply mapM_concat_imports; [| |exact Hls].
  - intros sp src s out s' Ho. apply runs_ret_inv in Ho. apply Ho.
  - intros st s out s' Ho.
    apply runs_bind_inv in Ho. destruct Ho as [st' [s1 [_ Ho]]].
    apply runs_ret_inv in Ho. destruct Ho as [-> _].
    destruct (isTestStatement st); reflexivity.
Qed.

Lemma removeFirstTestDeclarator_imports (root : program) :
  filter isImport (removeFirstTestDeclarator root) = filter isImport root.
Proof.
  unfold removeFirstTestDeclarator.
  destruct (pruneFirstTop root false) as [[out|e] s'] eqn:E; [|reflexivity].
  unfold pruneFirstTop in E.
  apply runs_bind_inv in E. destruct E as [ls [s1 [Hls H]]].
  apply runs_ret_inv in H. destruct H as [-> _].
  eapply mapM_concat_imports; [| |exact Hls].
  - intros sp src s o s2 Ho. apply runs_ret_inv in Ho. apply Ho.
  - intros st s o s2 Ho.
    apply runs_bind_inv in Ho. destruct Ho as [l [s3 [_ Ho]]].
    apply runs_ret_inv in Ho. destruct Ho as [-> _].
    apply filter_isImport_statements.
Qed.

Lemma generateSharedContext_imports (root out : program) (c c' : console) :
  runs (generateSharedContext root) c out c' ->
  filter isImport out = filter isImport root.
Proof.
  unfold generateSharedContext.
  assert (Hlog : forall msg,
             runs (console_log msg ;; ret root) c out c' ->
             filter isImport out = filter isImport root).
  { intros msg H. apply runs_bind_inv in H. destruct H as [u [c1 [_ H]]].
    apply runs_ret_inv in H. destruct H as [-> _]. reflexivity. }
  destruct (flat_map findTestDeclaratorsTop root) as [|[i init] rest]; [apply Hlog|].
  destruct init as [[]|]; try apply Hlog.
  destruct typeAnnotation; try apply Hlog.
  destruct typeParameters as [[|specificType others]|]; try apply Hlog.
  destruct specificType; try apply Hlog.
  intro H. apply runs_bind_inv in H. destruct H as [root' [c1 [Hins H]]].
  apply runs_ret_inv in H. destruct H as [-> _].
  rewrite removeFirstTestDeclarator_imports.
  eapply insertAroundTop_imports. exact Hins.
Qed.

Lemma onStatements_imports (f : node -> node) (root : program) :
  filter isImport (onStatements f root) = filter isImport root.
Proof.
  induction root as [|[sp src|s] r IH]; simpl; [reflexivity| |exact IH].
  rewrite IH. reflexivity.
Qed.

Lemma updateAssertions_imports (root out : program) (c c' : console) :
  runs (updateAssertions root) c out c' ->
  filter isImport out = filter isImport root.
Proof.
  unfold updateAssertions. apply mapM_imports.
  - intros sp src s o s' Ho. apply runs_ret_inv in Ho. apply Ho.
  - intros st s o s' Ho.
    apply runs_bind_inv in Ho. destruct Ho as [r [s1 [_ Ho]]].
    apply runs_ret_inv in Ho. destruct Ho as [-> _]. reflexivity.
Qed.

Lemma filter_isAvaImport_imports (l : program) :
  filter isAvaImport (filter isImport l) = filter isAvaImport l.
Proof.
  induction l as [|[sp src|s] r IH]; simpl; [reflexivity| |exact IH].
  rewrite IH. reflexivity.
Qed.

(** X17.  Whenever the pipeline returns, the import declarations of its
    output are those of the input that are not from ['ava'], the same ones in
    the same order: no pass after the first adds, drops or changes an
    import, and no import from ['ava'] is left. *)
Theorem transformer_imports :
  forall (root out : program) (c c' : console),
    transformer root c = (Returned out, c') ->
    filter isImport out = filter isImport (removeImport root)
    /\ filter isAvaImport out = [].
Proof.
  intros root out c c' H.
  assert (Himp : filter isImport out = filter isImport (removeImport root)).
  { unfold transformer in H. fold (runs (transformer root) c out c') in H.
    unfold transformer in H.
    apply runs_bind_inv in H. destruct H as [root2 [c1 [H2 H]]].
    apply runs_bind_inv in H. destruct H as [root5 [c2 [H5 H]]].
    apply runs_ret_inv in H. destruct H as [-> _].
    unfold rewriteTestCallExpression. rewrite onStatements_imports.
    rewrite (updateAssertions_imports _ H5).
    unfold adjustTestDefinitions, updateSharedContextReferences.
    rewrite !onStatements_imports.
    eapply generateSharedContext_imports. exact H2. }
  split; [exact Himp|].
  rewrite <- filter_isAvaImport_imports, Himp, filter_isAvaImport_imports.
  apply removeImport_clean.
Qed.

Lemma transformer_imports_witness :
  filter isImport
    [ ImportDeclaration ["helper"] (LString "./helper");
      Statement (ExpressionStatement
                   (ExpressionStatement
                      (CallExpression
                         (MemberExpression false
                            (CallExpression (Identifier "expect" None) [Identifier "a" None])
                            (Identifier "toBe" None))
                         [Identifier "b" None]))) ] =
  filter isImport
    (removeImport
       [ ImportDeclaration ["test"] (LString "ava");
         ImportDeclaration ["helper"] (LString "./helper");
         Statement (ExpressionStatement
                      (CallExpression
                         (MemberExpression false (Identifier "t" None)
                            (Identifier "is" None))
                         [Identifier "a" None; Identifier "b" None])) ]).
Proof.
  apply (proj1 (@transformer_imports
                  [ ImportDeclaration ["test"] (LString "ava");
                    ImportDeclaration ["helper"] (LString "./helper");
                    Statement (ExpressionStatement
                                 (CallExpression
                                    (MemberExpression false (Identifier "t" None)
                                       (Identifier "is" None))
                                    [Identifier "a" None; Identifier "b" None])) ]
                  _ [] ["No test variable found."] eq_refl)).
Defined.

(** ** The pipeline on a file that uses none of the idioms *)

Lemma onStatements_id (f : node -> node) (p : node -> bool) (root : program) :
  (forall s, p s = true -> f s = s) ->
  forallb (onTop p) root = true -> onStatements f root = root.
Proof.
  intros Hf H. unfold onStatements. rewrite <- (map_id root) at 2.
  apply map_ext_in. intros [sp src|s] Hin; [reflexivity|].
  rewrite forallb_forall in H. specialize (H _ Hin). simpl in H.
  rewrite (Hf _ H). reflexivity.
Qed.

(** X18.  A file with no import from ['ava'], no [test] variable, no
    [t.context], no [test(x, fn)] whose [fn] has parameters, no call matched
    by the assertion pass and no lifecycle call (a converted file, or one
    that never used the origin framework): the pipeline returns it unchanged
    and writes the one line ['No test variable found.']. *)
Theorem transformer_nothing_to_do :
  forall (root : program) (c : console),
    filter isAvaImport root = [] ->
    flat_map findTestDeclaratorsTop root = [] ->
    forallb (onTop noContextAccess) root = true ->
    forallb (onTop adjusted) root = true ->
    forallb (onTop noAssertionCall) root = true ->
    forallb (onTop noLifecycleCall) root = true ->
    transformer root c = (Returned root, c ++ ["No test variable found."]).
Proof.
  intros root c Hava Htest Hctx Hadj Hass Hlife.
  unfold transformer.
  rewrite (removeImport_none _ Hava).
  unfold generateSharedContext. rewrite Htest.
  unfold updateSharedContextReferences, adjustTestDefinitions, rewriteTestCallExpression.
  unfold bind at 1. unfold bind at 1. unfold console_log, ret at 1.
  rewrite (onStatements_id _ _ _ updateSharedContextReferences_node_id Hctx).
  rewrite (onStatements_id _ _ _ adjustTestDefinitions_node_id Hadj).
  unfold bind. rewrite (updateAssertions_unmatched _ Hass).
  unfold ret.
  rewrite (onStatements_id _ _ _ rewriteTestCallExpression_node_id Hlife).
  reflexivity.
Qed.

Lemma transformer_nothing_to_do_witness :
  transformer
    [ ImportDeclaration ["helper"] (LString "./helper");
      Statement
        (ExpressionStatement
           (CallExpression (Identifier "test" None)
              [ Literal (LString "adds");
                ArrowFunctionExpression []
                  (BlockStatement
                     [ExpressionStatement
                        (CallExpression
                           (MemberExpression false
                              (CallExpression (Identifier "expect" None)
                                 [Identifier "sum" None])
                              (Identifier "toBe" None))
                           [Literal (LNumber 4)])]) ])) ] [] =
  (Returned
     [ ImportDeclaration ["helper"] (LString "./helper");
       Statement
         (ExpressionStatement
            (CallExpression (Identifier "test" None)
               [ Literal (LString "adds");
                 ArrowFunctionExpression []
                   (BlockStatement
                      [ExpressionStatement
                         (CallExpression
                            (MemberExpression false
                               (CallExpression (Identifier "expect" None)
                                  [Identifier "sum" None])
                               (Identifier "toBe" None))
                            [Literal (LNumber 4)])]) ])) ],
   [] ++ ["No test variable found."]).
Proof.
  apply transformer_nothing_to_do; reflexivity.
Defined.

(** ** Passes 3 and 4 in either order *)

Lemma mapKids_compose (f g : node -> node) (n : node) :
  mapKids f (map f) (mapKids g (map g) n) =
  mapKids (fun k => f (g k)) (map (fun k => f (g k))) n.
Proof.
  destruct n; simpl; rewrite ?map_map; try reflexivity.
  - destruct argument; reflexivity.
  - f_equal. apply map_ext. intros [i init]. simpl. destruct init; reflexivity.
Qed.

Lemma mapKids_ext (f g : node -> node) (n : node) :
  Forall_kids (fun k => f k = g k) (Forall (fun k => f k = g k)) n ->
  mapKids f (map f) n = mapKids g (map g) n.
Proof.
  assert (Hmany : forall l, Forall (fun k => f k = g k) l -> map f l = map g l).
  { intros l Hl. apply map_ext_in. rewrite Forall_forall in Hl. exact Hl. }
  destruct n; simpl; intro H;
    repeat match goal with
           | H : _ /\ _ |- _ => destruct H
           end;
    try reflexivity;
    repeat match goal with
           | H : f _ = g _ |- _ => rewrite H; clear H
           | H : Forall _ _ |- _ => rewrite (Hmany _ H); clear H
           end;
    try reflexivity.
  - destruct argument; simpl in *; congruence.
  - f_equal. apply map_ext_in. intros [i init] Hin.
    rewrite Forall_forall in H. destruct (H _ Hin) as [Hi Hinit]. simpl.
    rewrite Hi. destruct init; simpl in *; congruence.
Qed.

Lemma isFunctionValue_updated (k : node) :
  isFunctionValue (updateSharedContextReferences_node k) = isFunctionValue k.
Proof.
  rewrite updateSharedContextReferences_node_eq. destruct k; try reflexivity.
  destruct (isIdentifierNamed "t" k1 && isIdentifierNamed "context" k2); reflexivity.
Qed.

Lemma clearParams_updated (f : node) :
  updateSharedContextReferences_node (clearParams f) =
  clearParams (updateSharedContextReferences_node f).
Proof.
  destruct f; try reflexivity.
  - simpl clearParams at 1. rewrite updateSharedContextReferences_node_eq.
    destruct (isIdentifierNamed "t" f1 && isIdentifierNamed "context" f2); reflexivity.
  - destruct params; reflexivity.
  - destruct params; reflexivity.
Qed.

Lemma map_setNth (A B : Type) (g : A -> B) (i : nat) (v : A) (l : list A) :
  map g (setNth i v l) = setNth i (g v) (map g l).
Proof.
  revert i. induction l as [|x r IH]; intros [|i]; simpl; try reflexivity.
  rewrite IH. reflexivity.
Qed.

Lemma adjustTestDefinitions_each_updated (callee : node) (args : list node) :
  updateSharedContextReferences_node (adjustTestDefinitions_each callee args) =
  adjustTestDefinitions_each (updateSharedContextReferences_node callee)
    (map updateSharedContextReferences_node args).
Proof.
  unfold adjustTestDefinitions_each.
  rewrite nth_error_map, length_map.
  destruct (nth_error args 1) as [f|]; simpl option_map; cbv iota; [|reflexivity].
  rewrite isFunctionValue_updated.
  destruct (Nat.ltb 1 (length args) && isFunctionValue f); [|reflexivity].
  rewrite <- clearParams_updated, <- map_setNth. reflexivity.
Qed.

(** X19.  [updateSharedContextReferences] and [adjustTestDefinitions] give
    the same tree in either order: emptying the parameter list of a test
    callback takes nothing from what the reference rewrite matches, which is
    [t.context] by the names of the two identifiers. *)
Theorem context_passes_commute :
  forall n : node,
    adjustTestDefinitions_node (updateSharedContextReferences_node n) =
    updateSharedContextReferences_node (adjustTestDefinitions_node n).
Proof.
  induction n as [n IH] using node_kids_ind.
  assert (Hk : mapKids adjustTestDefinitions_node (map adjustTestDefinitions_node)
                 (mapKids updateSharedContextReferences_node
                    (map updateSharedContextReferences_node) n) =
               mapKids updateSharedContextReferences_node
                 (map updateSharedContextReferences_node)
                 (mapKids adjustTestDefinitions_node (map adjustTestDefinitions_node) n)).
  { rewrite !mapKids_compose. apply mapKids_ext. exact IH. }
  destruct n;
    try (rewrite (updateSharedContextReferences_node_eq
                    (adjustTestDefinitions_node _));
         rewrite (adjustTestDefinitions_node_eq
                    (updateSharedContextReferences_node _));
         simpl; simpl in Hk; exact Hk).
  - (* MemberExpression *)
    rewrite (updateSharedContextReferences_node_eq (MemberExpression _ _ _)).
    rewrite (adjustTestDefinitions_node_eq (MemberExpression _ _ _)).
    change (mapKids adjustTestDefinitions_node (map adjustTestDefinitions_node)
              (MemberExpression computed n1 n2))
      with (MemberExpression computed (adjustTestDefinitions_node n1)
              (adjustTestDefinitions_node n2)) in *.
    rewrite (updateSharedContextReferences_node_eq (MemberExpression _ _ _)).
    rewrite !isIdentifierNamed_adjusted.
    destruct (isIdentifierNamed "t" n1 && isIdentifierNamed "context" n2);
      [reflexivity|].
    rewrite adjustTestDefinitions_node_eq. exact Hk.
  - (* CallExpression *)
    rewrite (updateSharedContextReferences_node_eq (CallExpression _ _)).
    simpl mapKids.
    rewrite (adjustTestDefinitions_node_eq (CallExpression _ _)). cbv zeta.
    rewrite (adjustTestDefinitions_node_eq (CallExpression n arguments)). cbv zeta.
    rewrite nameIs_updated by discriminate.
    simpl in Hk. inversion Hk as [[Hc Ha]].
    destruct (nameIs "test" n).
    + rewrite adjustTestDefinitions_each_updated. rewrite Hc, Ha. reflexivity.
    + rewrite (updateSharedContextReferences_node_eq (CallExpression _ _)).
      simpl mapKids. rewrite Hc, Ha. reflexivity.
Qed.

(** ** The assertion pass: a property that is not an identifier, a call
    without arguments *)

(** X20.  In [t[<p>](...)] with [p] not an identifier ([t['is'](1, 1)]) the
    property has no [name]: the exclusion set does not hold [undefined], the
    table has no key ['undefined'], and the call is reported under the name
    [undefined] and left in the tree, whatever [p] spells. *)
Theorem unnamed_property_reported :
  forall (computed : bool) (a : option tstype) (p : node) (args : list node)
         (c : console),
    nodeName p = None ->
    noAssertionCall p = true ->
    Forall (fun k => noAssertionCall k = true) args ->
    let call := CallExpression (MemberExpression computed (Identifier "t" a) p) args in
    updateAssertions_node call c =
    (Returned (call, call),
     c ++ [(dquote ++ "undefined" ++ dquote ++ " is currently not supported")%string]).
Proof.
  intros computed a p args c Hname Hp Hargs call. unfold call.
  rewrite updateAssertions_node_call. cbv zeta.
  replace (assertionFilter (MemberExpression computed (Identifier "t" a) p))
    with true by (unfold assertionFilter; rewrite Hname; reflexivity).
  unfold updateAssertions_each. unfold calleePropertyName. rewrite Hname.
  change (getProperty tPropertiesMap None) with JUndefined. cbv iota.
  match goal with
  | |- bind (bind (console_log ?m) ?k1) ?k2 c = _ =>
      change (bind (bind (console_log m) k1) k2 c) with (k2 None (c ++ [m]))
  end.
  cbv beta.
  eapply pure_bind.
  { eapply pure_bind; [|apply pure_ret].
    apply (updateAssertions_node_noAssertionCall
             (MemberExpression computed (Identifier "t" a) p)).
    simpl. rewrite Hp. reflexivity. }
  eapply pure_bind.
  { apply mapM_pure with (g := fun k => (k, k)).
    eapply Forall_impl; [|exact Hargs].
    intros k Hk. apply updateAssertions_node_noAssertionCall. exact Hk. }
  rewrite map_snd_dup. apply pure_ret.
Qed.

Lemma unnamed_property_reported_witness :
  updateAssertions_node
    (CallExpression
       (MemberExpression true (Identifier "t" None) (Literal (LString "is")))
       [Literal (LNumber 1); Literal (LNumber 1)]) [] =
  (Returned
     (CallExpression
        (MemberExpression true (Identifier "t" None) (Literal (LString "is")))
        [Literal (LNumber 1); Literal (LNumber 1)],
      CallExpression
        (MemberExpression true (Identifier "t" None) (Literal (LString "is")))
        [Literal (LNumber 1); Literal (LNumber 1)]),
   [] ++ [(dquote ++ "undefined" ++ dquote ++ " is currently not supported")%string]).
Proof.
  apply (@unnamed_property_reported true None (Literal (LString "is"))
           [Literal (LNumber 1); Literal (LNumber 1)] []);
    try reflexivity.
  repeat constructor.
Defined.

(** X21.  A call [t.<name>()] without arguments, for any key of the rule
    table other than [throws] and [notThrows]: [args[0]] is [undefined], the
    call builder rejects the array that holds it, and the pass throws at
    that call with nothing written to the console. *)
Theorem no_argument_call_throws :
  forall (name mappedName : string) (computed : bool) (a a' : option tstype)
         (c : console),
    ownProperty tPropertiesMap name = Some mappedName ->
    mappedName <> SPECIAL_THROWS_CASE ->
    updateAssertions_node
      (CallExpression
         (MemberExpression computed (Identifier "t" a) (Identifier name a')) []) c =
    (Thrown (BuilderMismatch "CallExpression" "arguments"), c).
Proof.
  intros name mappedName computed a a' c Hown Ht.
  pose proof Hown as Hin. apply ownProperty_In in Hin. simpl in Hin.
  repeat (destruct Hin as [Hin|Hin];
          [inversion Hin; subst; try (exfalso; apply Ht; reflexivity); reflexivity|]).
  contradiction.
Qed.

Lemma no_argument_call_throws_witness :
  updateAssertions_node
    (CallExpression
       (MemberExpression false (Identifier "t" None) (Identifier "true" None)) []) [] =
  (Thrown (BuilderMismatch "CallExpression" "arguments"), []).
Proof.
  apply (@no_argument_call_throws "true" SPECIAL_BOOL false None None []);
    [reflexivity | discriminate].
Defined.

(** ** Passes 3, 4 and 6 on well-formed trees *)

Lemma wellFormed_eq (n : node) :
  wellFormed n = slotsOk n && allKids wellFormed wellFormed n.
Proof. destruct n; reflexivity. Qed.

Lemma wellFormed_kids (n : node) :
  wellFormed n = true ->
  Forall_kids (fun k => wellFormed k = true) (Forall (fun k => wellFormed k = true)) n.
Proof.
  rewrite wellFormed_eq. intro H. apply andb_true_iff in H. destruct H as [_ H].
  apply allKids_Forall_kids in H.
  eapply Forall_kids_impl; [| |exact H]; simpl; auto.
  intros l Hl. apply forallb_Forall. exact Hl.
Qed.

Lemma forallb_map_keeps (p : node -> bool) (f : node -> node) (l : list node) :
  (forall k, p k = true -> p (f k) = true) ->
  forallb p l = true -> forallb p (map f l) = true.
Proof.
  intros Hp. induction l as [|x r IH]; simpl; [reflexivity|].
  intro H. apply andb_true_iff in H. destruct H as [Hx Hr].
  rewrite (Hp _ Hx), (IH Hr). reflexivity.
Qed.

Lemma slotsOk_mapKids (f : node -> node) (n : node) :
  keepsKinds f -> slotsOk n = true -> slotsOk (mapKids f (map f) n) = true.
Proof.
  intro Hf.
  assert (He : forall k, isExpression k = true -> isExpression (f k) = true)
    by (intro k; apply (Hf k)).
  assert (Hs : forall k, isStatement k = true -> isStatement (f k) = true)
    by (intro k; apply (Hf k)).
  assert (Hp : forall k, isPattern k = true -> isPattern (f k) = true)
    by (intro k; apply (Hf k)).
  assert (Hb : forall k, match k with BlockStatement _ => true | _ => false end = true ->
                         match f k with BlockStatement _ => true | _ => false end = true)
    by (intro k; apply (Hf k)).
  assert (Ho : forall k, match k with ObjectProperty _ _ => true | _ => false end = true ->
                         match f k with ObjectProperty _ _ => true | _ => false end = true)
    by (intro k; apply (Hf k)).
  destruct n; simpl; try reflexivity; intro H;
    repeat match goal with
           | H : _ && _ = true |- _ => apply andb_true_iff in H; destruct H
           end.
  - rewrite (He _ H), (He _ H0). reflexivity.
  - rewrite (He _ H). apply forallb_map_keeps; assumption.
  - rewrite (forallb_map_keeps _ _ _ Hp H). apply orb_true_iff in H0.
    apply orb_true_iff. destruct H0 as [H0|H0]; [left; apply He|right; apply Hb]; exact H0.
  - rewrite (forallb_map_keeps _ _ _ Hp H). apply Hb. exact H0.
  - apply (forallb_map_keeps _ _ _ Ho H).
  - rewrite (He _ H). apply orb_true_iff in H0.
    apply orb_true_iff. destruct H0 as [H0|H0]; [left; apply He|right; apply Hp]; exact H0.
  - apply He. exact H.
  - apply He. exact H.
  - apply (forallb_map_keeps _ _ _ Hs H).
  - apply He. exact H.
  - destruct argument; simpl; [apply He; exact H|reflexivity].
  - induction declarations as [|[i init] r IH]; simpl in *; [reflexivity|].
    apply andb_true_iff in H. destruct H as [Hd Hr].
    apply andb_true_iff in Hd. destruct Hd as [Hi Hinit].
    rewrite (Hp _ Hi), (IH Hr), andb_true_r, andb_true_l.
    destruct init; simpl; [apply He; exact Hinit|reflexivity].
Qed.

(** A rewrite that keeps the kinds and is [mapKids] of itself on [n]. *)
Lemma wellFormed_mapKids (f : node -> node) (n : node) :
  keepsKinds f ->
  Forall_kids (fun k => wellFormed k = true -> wellFormed (f k) = true)
    (Forall (fun k => wellFormed k = true -> wellFormed (f k) = true)) n ->
  wellFormed n = true ->
  wellFormed (mapKids f (map f) n) = true.
Proof.
  intros Hf IH Hn.
  pose proof (Forall_kids_and _ _ _ _ _ IH (wellFormed_kids _ Hn)) as H.
  assert (Hk : Forall_kids (fun k => wellFormed (f k) = true)
                 (Forall (fun k => wellFormed (f k) = true)) n).
  { eapply Forall_kids_impl; [| |exact H]; simpl.
    - intros k [H1 H2]. auto.
    - intros l [H1 H2]. rewrite Forall_forall in *. auto. }
  rewrite wellFormed_eq in Hn. apply andb_true_iff in Hn. destruct Hn as [Hslots _].
  rewrite wellFormed_eq, (slotsOk_mapKids _ Hf Hslots),
    (allKids_mapKids wellFormed f n Hk).
  reflexivity.
Qed.

Lemma updateSharedContextReferences_keepsKinds :
  keepsKinds updateSharedContextReferences_node.
Proof.
  intro k. rewrite updateSharedContextReferences_node_eq.
  destruct k; simpl; repeat split; auto;
    destruct (isIdentifierNamed "t" k1 && isIdentifierNamed "context" k2); simpl; auto.
Qed.

Lemma adjustTestDefinitions_keepsKinds : keepsKinds adjustTestDefinitions_node.
Proof.
  intro k. rewrite adjustTestDefinitions_node_eq.
  destruct k; try (simpl; repeat split; auto; fail).
  cbv zeta.
  assert (E : exists c x,
             (if nameIs "test" k
              then adjustTestDefinitions_each (adjustTestDefinitions_node k)
                     (map adjustTestDefinitions_node arguments)
              else CallExpression (adjustTestDefinitions_node k)
                     (map adjustTestDefinitions_node arguments)) = CallExpression c x).
  { destruct (nameIs "test" k); [|eauto].
    destruct (adjustTestDefinitions_each_shape (adjustTestDefinitions_node k)
                (map adjustTestDefinitions_node arguments)) as [E|[f [_ E]]];
      rewrite E; eauto. }
  destruct E as [c [x E]]. rewrite E. simpl. repeat split; auto.
Qed.

Lemma rewriteTestCallExpression_keepsKinds : keepsKinds rewriteTestCallExpression_node.
Proof.
  intro k. rewrite rewriteTestCallExpression_node_eq.
  destruct k; try (simpl; repeat split; auto; fail).
  cbv zeta.
  assert (E : exists c x,
             (if lifecycleFilter k
              then rewriteTestCallExpression_each (rewriteTestCallExpression_node k)
                     (map rewriteTestCallExpression_node arguments)
              else CallExpression (rewriteTestCallExpression_node k)
                     (map rewriteTestCallExpression_node arguments)) = CallExpression c x).
  { destruct (lifecycleFilter k); [|eauto].
    apply rewriteTestCallExpression_each_call. }
  destruct E as [c [x E]]. rewrite E. simpl. repeat split; auto.
Qed.

Lemma wellFormed_clearParams (f : node) :
  wellFormed f = true -> wellFormed (clearParams f) = true.
Proof.
  destruct f; try (intro H; exact H).
  - unfold clearParams. destruct (Nat.ltb 0 (length params)); [|intro H; exact H].
    rewrite !wellFormed_eq. simpl. intro H.
    repeat match goal with
           | H : _ && _ = true |- _ => apply andb_true_iff in H; destruct H
           end.
    repeat (apply andb_true_iff; split); solve [assumption | reflexivity].
  - unfold clearParams. destruct (Nat.ltb 0 (length params)); [|intro H; exact H].
    rewrite !wellFormed_eq. simpl. intro H.
    repeat match goal with
           | H : _ && _ = true |- _ => apply andb_true_iff in H; destruct H
           end.
    repeat (apply andb_true_iff; split); solve [assumption | reflexivity].
Qed.

Lemma isExpression_clearParams (f : node) :
  isExpression (clearParams f) = isExpression f.
Proof.
  destruct f; try reflexivity; unfold clearParams;
    destruct (Nat.ltb 0 (length params)); reflexivity.
Qed.

Lemma wellFormed_shiftAssertionParam (f : node) :
  wellFormed f = true -> wellFormed (shiftAssertionParam f) = true.
Proof.
  destruct f; try (intro H; exact H).
  - destruct params as [|p ps]; [intro H; exact H|].
    unfold shiftAssertionParam. destruct (nameIs "t" p); [|intro H; exact H].
    rewrite !wellFormed_eq. simpl. intro H.
    repeat match goal with
           | H : _ && _ = true |- _ => apply andb_true_iff in H; destruct H
           end.
    repeat (apply andb_true_iff; split); assumption.
  - destruct params as [|p ps]; [intro H; exact H|].
    unfold shiftAssertionParam. destruct (nameIs "t" p); [|intro H; exact H].
    rewrite !wellFormed_eq. simpl. intro H.
    repeat match goal with
           | H : _ && _ = true |- _ => apply andb_true_iff in H; destruct H
           end.
    repeat (apply andb_true_iff; split); assumption.
Qed.

Lemma isExpression_shiftAssertionParam (f : node) :
  isExpression (shiftAssertionParam f) = isExpression f.
Proof.
  destruct f; try reflexivity; destruct params as [|p ps]; try reflexivity;
    unfold shiftAssertionParam; destruct (nameIs "t" p); reflexivity.
Qed.

(** A call whose callee and arguments are well-formed expressions. *)
Lemma wellFormed_call (callee : node) (args : list node) :
  wellFormed (CallExpression callee args) = true <->
  (isExpression callee = true /\ wellFormed callee = true)
  /\ forallb isExpression args = true /\ forallb wellFormed args = true.
Proof.
  rewrite wellFormed_eq. simpl. rewrite !andb_true_iff. tauto.
Qed.

Lemma context_passes_node_wellFormed :
  forall n : node,
    wellFormed n = true ->
    wellFormed (updateSharedContextReferences_node n) = true
    /\ wellFormed (adjustTestDefinitions_node n) = true.
Proof.
  induction n as [n IH] using node_kids_ind. intro Hn.
  assert (IH1 : Forall_kids
                  (fun k => wellFormed k = true ->
                            wellFormed (updateSharedContextReferences_node k) = true)
                  (Forall (fun k => wellFormed k = true ->
                                    wellFormed (updateSharedContextReferences_node k) = true))
                  n).
  { eapply Forall_kids_impl; [| |exact IH]; simpl.
    - intros k H Hk. apply (H Hk).
    - intros l H. eapply Forall_impl; [|exact H]. intros k H' Hk. apply (H' Hk). }
  assert (IH2 : Forall_kids
                  (fun k => wellFormed k = true ->
                            wellFormed (adjustTestDefinitions_node k) = true)
                  (Forall (fun k => wellFormed k = true ->
                                    wellFormed (adjustTestDefinitions_node k) = true))
                  n).
  { eapply Forall_kids_impl; [| |exact IH]; simpl.
    - intros k H Hk. apply (H Hk).
    - intros l H. eapply Forall_impl; [|exact H]. intros k H' Hk. apply (H' Hk). }
  pose proof (wellFormed_mapKids _ updateSharedContextReferences_keepsKinds IH1 Hn) as H1.
  pose proof (wellFormed_mapKids _ adjustTestDefinitions_keepsKinds IH2 Hn) as H2.
  split.
  - rewrite updateSharedContextReferences_node_eq.
    destruct n; try exact H1.
    destruct (isIdentifierNamed "t" n1 && isIdentifierNamed "context" n2);
      [reflexivity|exact H1].
  - rewrite adjustTestDefinitions_node_eq.
    destruct n; try exact H2.
    cbv zeta. simpl mapKids in H2.
    destruct (nameIs "test" n); [|exact H2].
    destruct (adjustTestDefinitions_each_shape (adjustTestDefinitions_node n)
                (map adjustTestDefinitions_node arguments)) as [E|[f [Hf E]]];
      rewrite E; [exact H2|].
    apply wellFormed_call in H2. destruct H2 as [Hc [He Hw]].
    apply wellFormed_call. split; [exact Hc|]. split.
    + apply forallb_setNth; [exact He|].
      rewrite isExpression_clearParams.
      eapply forallb_nth_error; [exact He|exact Hf].
    + apply forallb_setNth; [exact Hw|].
      apply wellFormed_clearParams.
      eapply forallb_nth_error; [exact Hw|exact Hf].
Qed.

Lemma rewriteTestCallExpression_node_wellFormed :
  forall n : node,
    wellFormed n = true -> wellFormed (rewriteTestCallExpression_node n) = true.
Proof.
  induction n as [n IH] using node_kids_ind. intro Hn.
  pose proof (wellFormed_mapKids _ rewriteTestCallExpression_keepsKinds IH Hn) as H.
  rewrite rewriteTestCallExpression_node_eq.
  destruct n; try exact H.
  cbv zeta. simpl mapKids in H.
  destruct (lifecycleFilter n); [|exact H].
  apply wellFormed_call in H. destruct H as [Hc [He Hw]].
  destruct (rewriteTestCallExpression_each_shape (rewriteTestCallExpression_node n)
              (map rewriteTestCallExpression_node arguments))
    as [[_ E]|[j [args1 [Hargs1 E]]]].
  - rewrite E. apply wellFormed_call. auto.
  - assert (He1 : forallb isExpression args1 = true)
      by (destruct Hargs1 as [->| ->]; [exact He|apply forallb_tl; exact He]).
    assert (Hw1 : forallb wellFormed args1 = true)
      by (destruct Hargs1 as [->| ->]; [exact Hw|apply forallb_tl; exact Hw]).
    destruct E as [E|[callback [Hcb E]]]; rewrite E; apply wellFormed_call;
      (split; [split; reflexivity|]).
    + auto.
    + split.
      * apply forallb_setNth; [exact He1|].
        rewrite isExpression_shiftAssertionParam.
        eapply forallb_nth_error; [exact He1|exact Hcb].
      * apply forallb_setNth; [exact Hw1|].
        apply wellFormed_shiftAssertionParam.
        eapply forallb_nth_error; [exact Hw1|exact Hcb].
Qed.

Lemma wellFormedProgram_onStatements (f : node -> node) (root : program) :
  keepsKinds f ->
  (forall n, wellFormed n = true -> wellFormed (f n) = true) ->
  wellFormedProgram root = true ->
  wellFormedProgram (onStatements f root) = true.
Proof.
  intros Hf Hw. unfold wellFormedProgram, onStatements.
  induction root as [|t r IH]; simpl; [reflexivity|].
  intro H. apply andb_true_iff in H. destruct H as [Ht Hr].
  rewrite (IH Hr), andb_true_r.
  destruct t as [specifiers source|s]; [reflexivity|].
  apply andb_true_iff in Ht. destruct Ht as [Hs Hwf].
  destruct (Hf s) as [_ [Hstmt _]].
  rewrite (Hstmt Hs), (Hw _ Hwf). reflexivity.
Qed.

(** X22.  [updateSharedContextReferences] and [adjustTestDefinitions] keep a
    well-formed file well formed: the first puts an identifier where a
    member expression was, the second only empties a parameter list. *)
Theorem context_passes_keep_wellFormed :
  forall root : program,
    wellFormedProgram root = true ->
    wellFormedProgram (updateSharedContextReferences root) = true
    /\ wellFormedProgram (adjustTestDefinitions root) = true.
Proof.
  intros root H. split.
  - apply wellFormedProgram_onStatements;
      [apply updateSharedContextReferences_keepsKinds| |exact H].
    intros n Hn. apply (context_passes_node_wellFormed n Hn).
  - apply wellFormedProgram_onStatements;
      [apply adjustTestDefinitions_keepsKinds| |exact H].
    intros n Hn. apply (context_passes_node_wellFormed n Hn).
Qed.

Lemma context_passes_keep_wellFormed_witness :
  wellFormedProgram
    (updateSharedContextReferences
       [ ImportDeclaration ["helper"] (LString "./helper");
         Statement
           (ExpressionStatement
              (CallExpression (Identifier "test" None)
                 [Literal (LString "reads");
                  ArrowFunctionExpression [Identifier "t" None]
                    (MemberExpression false
                       (MemberExpression false (Identifier "t" None)
                          (Identifier "context" None))
                       (Identifier "db" None))])) ]) = true
  /\ wellFormedProgram
       (adjustTestDefinitions
          [ ImportDeclaration ["helper"] (LString "./helper");
            Statement
              (ExpressionStatement
                 (CallExpression (Identifier "test" None)
                    [Literal (LString "reads");
                     ArrowFunctionExpression [Identifier "t" None]
                       (MemberExpression false
                          (MemberExpression false (Identifier "t" None)
                             (Identifier "context" None))
                          (Identifier "db" None))])) ]) = true.
Proof.
  apply (context_passes_keep_wellFormed
           [ ImportDeclaration ["helper"] (LString "./helper");
             Statement
               (ExpressionStatement
                  (CallExpression (Identifier "test" None)
                     [Literal (LString "reads");
                      ArrowFunctionExpression [Identifier "t" None]
                        (MemberExpression false
                           (MemberExpression false (Identifier "t" None)
                              (Identifier "context" None))
                           (Identifier "db" None))])) ]).
  reflexivity.
Defined.

(** X23.  [rewriteTestCallExpression] keeps a well-formed file well formed:
    the new callee is an identifier, and what the pass takes from the
    argument list and from the parameter list of the callback leaves lists
    of the same kinds. *)
Theorem rewriteTestCallExpression_keeps_wellFormed :
  forall root : program,
    wellFormedProgram root = true ->
    wellFormedProgram (rewriteTestCallExpression root) = true.
Proof.
  intros root H.
  apply wellFormedProgram_onStatements;
    [apply rewriteTestCallExpression_keepsKinds| |exact H].
  apply rewriteTestCallExpression_node_wellFormed.
Qed.

Lemma rewriteTestCallExpression_keeps_wellFormed_witness :
  wellFormedProgram
    (rewriteTestCallExpression
       [ Statement
           (ExpressionStatement
              (CallExpression
                 (MemberExpression false (Identifier "test" None)
                    (Identifier "beforeEach" None))
                 [ArrowFunctionExpression [Identifier "t" None] (BlockStatement [])])) ])
  = true.
Proof.
  apply (rewriteTestCallExpression_keeps_wellFormed
           [ Statement
               (ExpressionStatement
                  (CallExpression
                     (MemberExpression false (Identifier "test" None)
                        (Identifier "beforeEach" None))
                     [ArrowFunctionExpression [Identifier "t" None]
                        (BlockStatement [])])) ]).
  reflexivity.
Defined.
